(** * hindi-news-listener: the request handlers of [server.js]

    A shallow embedding of the Express server: the JavaScript values the
    handlers receive, the built-in operations they call, the helper functions
    [escapeXml], [ratePercentToSsmlRate] and [buildHindiSsml], the four
    handlers and the start-up check, followed by the properties of the
    specification. *)

From Stdlib Require Import ZArith QArith List String Ascii Bool Lia DecimalString.
Import ListNotations.

Open Scope Z_scope.

(** ** JavaScript strings

    A string is its sequence of UTF-16 code units. *)

Definition jsstring := list Z.

(** An ASCII literal as a JavaScript string. *)
Definition u (s : string) : jsstring :=
  map (fun a => Z.of_N (N_of_ascii a)) (list_ascii_of_string s).

(** The source file is UTF-8: a literal with Hebrew text is decoded from its
    bytes to code units. *)
Fixpoint utf8_decode (bs : list Z) : jsstring :=
  match bs with
  | [] => []
  | b0 :: r0 =>
    if b0 <? 128 then b0 :: utf8_decode r0
    else
      match r0 with
      | [] => []
      | b1 :: r1 =>
        if b0 <? 224 then ((b0 - 192) * 64 + (b1 - 128)) :: utf8_decode r1
        else
          match r1 with
          | [] => []
          | b2 :: r2 =>
            if b0 <? 240
            then ((b0 - 224) * 4096 + (b1 - 128) * 64 + (b2 - 128)) :: utf8_decode r2
            else
              match r2 with
              | [] => []
              | b3 :: r3 =>
                let cp := (b0 - 240) * 262144 + (b1 - 128) * 4096
                          + (b2 - 128) * 64 + (b3 - 128) in
                (55296 + (cp - 65536) / 1024)
                  :: (56320 + (cp - 65536) mod 1024) :: utf8_decode r3
              end
          end
      end
  end.

Definition lit (s : string) : jsstring := utf8_decode (u s).

Definition str_eqb (a b : jsstring) : bool :=
  if list_eq_dec Z.eq_dec a b then true else false.

(** [WhiteSpace] and [LineTerminator]: what [String.prototype.trim] strips
    and what the class [\s] of a regular expression matches. *)
Definition isWhite (c : Z) : bool :=
  ((9 <=? c) && (c <=? 13)) || (c =? 32) || (c =? 160) || (c =? 5760)
  || ((8192 <=? c) && (c <=? 8202)) || (c =? 8232) || (c =? 8233)
  || (c =? 8239) || (c =? 8287) || (c =? 12288) || (c =? 65279).

Fixpoint trimStart (s : jsstring) : jsstring :=
  match s with
  | [] => []
  | c :: r => if isWhite c then trimStart r else s
  end.

Definition trimEnd (s : jsstring) : jsstring := rev (trimStart (rev s)).

Definition trim (s : jsstring) : jsstring := trimEnd (trimStart s).

Definition startsWhite (s : jsstring) : bool :=
  match s with
  | [] => false
  | c :: _ => isWhite c
  end.

(** [s.split(/\s+/)]: the pieces between the maximal runs of white space; the
    result always has a first piece, which is empty when [s] starts with white
    space, and a last piece, which is empty when [s] ends with white space. *)
Fixpoint split_ws (s : jsstring) : list jsstring :=
  match s with
  | [] => [[]]
  | c :: r =>
    if isWhite c
    then (if startsWhite r then split_ws r else [] :: split_ws r)
    else
      match split_ws r with
      | [] => [[c]]
      | t :: ts => (c :: t) :: ts
      end
  end.

(** [s.split(sep)] for a separator of one code unit. *)
Fixpoint split_char (sep : Z) (s : jsstring) : list jsstring :=
  match s with
  | [] => [[]]
  | c :: r =>
    if c =? sep then [] :: split_char sep r
    else
      match split_char sep r with
      | [] => [[c]]
      | t :: ts => (c :: t) :: ts
      end
  end.

(** [xs.join(sep)]. *)
Fixpoint join (sep : jsstring) (xs : list jsstring) : jsstring :=
  match xs with
  | [] => []
  | [x] => x
  | x :: rest => x ++ sep ++ join sep rest
  end.

(** [s.replaceAll(c, rep)] for a pattern of one code unit. *)
Definition replaceAll (c : Z) (rep : jsstring) (s : jsstring) : jsstring :=
  flat_map (fun x => if x =? c then rep else [x]) s.

(** [/[lo-hi]/.test(s)]. *)
Definition has_in_range (lo hi : Z) (s : jsstring) : bool :=
  existsb (fun c => (lo <=? c) && (c <=? hi)) s.

(** [xs.filter(Boolean)] on an array of strings: the empty string is the only
    falsy one. *)
Definition nonEmpty (s : jsstring) : bool :=
  match s with
  | [] => false
  | _ :: _ => true
  end.

(** [s.indexOf(c)] and [s.lastIndexOf(c)], -1 when [c] does not occur. *)
Fixpoint indexOf (c : Z) (s : jsstring) : Z :=
  match s with
  | [] => -1
  | x :: r =>
    if x =? c then 0
    else let i := indexOf c r in if i <? 0 then -1 else i + 1
  end.

Fixpoint lastIndexOf (c : Z) (s : jsstring) : Z :=
  match s with
  | [] => -1
  | x :: r =>
    let i := lastIndexOf c r in
    if 0 <=? i then i + 1 else if x =? c then 0 else -1
  end.

(** [s.slice(a, b)] for [0 <= a] and [0 <= b]. *)
Definition slice (s : jsstring) (a b : Z) : jsstring :=
  firstn (Z.to_nat (b - a)) (skipn (Z.to_nat a) s).

(** ** JavaScript numbers

    A number is NaN, an infinity or a finite value. The finite values are
    kept as rationals: every finite double is one, comparison, [Math.min]
    and [Math.max] are exact on them, and the conversions from text round to
    the nearest double ([round_double]). The two zeros are not told apart:
    both are falsy, equal under every comparison and print as "0". *)

Inductive number : Type :=
| NaN
| PInf
| NInf
| Fin (q : Q).

Definition num (z : Z) : number := Fin (inject_Z z).

Definition num_compare (a b : number) : option comparison :=
  match a, b with
  | NaN, _ | _, NaN => None
  | PInf, PInf => Some Eq
  | PInf, _ => Some Gt
  | _, PInf => Some Lt
  | NInf, NInf => Some Eq
  | NInf, _ => Some Lt
  | _, NInf => Some Gt
  | Fin x, Fin y => Some (Qcompare x y)
  end.

(** [a < b], [a <= b] and [a > b]: false when an operand is NaN. *)
Definition num_ltb (a b : number) : bool :=
  match num_compare a b with
  | Some Lt => true
  | _ => false
  end.

Definition num_leb (a b : number) : bool :=
  match num_compare a b with
  | Some Lt | Some Eq => true
  | _ => false
  end.

Definition num_gtb (a b : number) : bool := num_ltb b a.

Definition is_nan (a : number) : bool :=
  match a with
  | NaN => true
  | _ => false
  end.

(** [Math.min(a, b)] and [Math.max(a, b)]: NaN when an operand is NaN. *)
Definition Math_min (a b : number) : number :=
  if is_nan a || is_nan b then NaN
  else if num_ltb a b then a else b.

Definition Math_max (a b : number) : number :=
  if is_nan a || is_nan b then NaN
  else if num_ltb b a then a else b.

(** Rounding of a non-negative fraction [a / b] to an integer, ties to even. *)
Definition round_half_even (a b : Z) : Z :=
  let fl := a / b in
  let r := a mod b in
  match Z.compare (2 * r) b with
  | Lt => fl
  | Gt => fl + 1
  | Eq => if Z.even fl then fl else fl + 1
  end.

(** The largest [e] with [2^e <= n / d], for [0 < n]. *)
Definition floor_log2 (n : Z) (d : positive) : Z :=
  let e0 := Z.log2 n - Z.log2 (Zpos d) in
  let below :=
    if 0 <=? e0 then n <? Zpos d * 2 ^ e0 else n * 2 ^ (- e0) <? Zpos d in
  if below then e0 - 1 else e0.

(** [m * 2^p] as a reduced fraction. *)
Definition scale2 (m p : Z) : Q :=
  if 0 <=? p then inject_Z (m * 2 ^ p)
  else Qred (Qmake m (Z.to_pos (2 ^ (- p)))).

(** The double nearest to a positive rational (binary64: 53 bits of
    precision, exponents from -1022 to 1023, ties to even). *)
Definition round_double_pos (n : Z) (d : positive) : number :=
  let e := floor_log2 n d in
  let p := Z.max e (-1022) - 52 in
  let m :=
    if 0 <=? p then round_half_even n (Zpos d * 2 ^ p)
    else round_half_even (n * 2 ^ (- p)) (Zpos d) in
  if (0 <=? p) && (2 ^ 1024 <=? m * 2 ^ p) then PInf else Fin (scale2 m p).

Definition num_opp (a : number) : number :=
  match a with
  | NaN => NaN
  | PInf => NInf
  | NInf => PInf
  | Fin q => Fin (Qopp q)
  end.

Definition round_double (q : Q) : number :=
  match Qnum q with
  | Z0 => Fin 0
  | Zpos _ => round_double_pos (Qnum q) (Qden q)
  | Zneg _ => num_opp (round_double_pos (- Qnum q) (Qden q))
  end.

(** *** [StringToNumber]: the grammar [StringNumericLiteral] *)

Definition isDigit (c : Z) : bool := (48 <=? c) && (c <=? 57).

(** The value of a digit in a radix up to 16, if it is one. *)
Definition digit_in (radix : Z) (c : Z) : option Z :=
  let v :=
    if isDigit c then c - 48
    else if (97 <=? c) && (c <=? 102) then c - 87
    else if (65 <=? c) && (c <=? 70) then c - 55
    else 99 in
  if v <? radix then Some v else None.

(** The leading decimal digits of [s] and what follows them. *)
Fixpoint take_digits (s : jsstring) : list Z * jsstring :=
  match s with
  | [] => ([], [])
  | c :: r =>
    if isDigit c
    then let '(ds, rest) := take_digits r in (c - 48 :: ds, rest)
    else ([], s)
  end.

Definition digits_value (radix : Z) (ds : list Z) : Z :=
  fold_left (fun acc d => acc * radix + d) ds 0.

(** All of [s] as digits of [radix], if it is nothing else. *)
Fixpoint all_digits (radix : Z) (s : jsstring) : option (list Z) :=
  match s with
  | [] => Some []
  | c :: r =>
    match digit_in radix c, all_digits radix r with
    | Some d, Some ds => Some (d :: ds)
    | _, _ => None
    end
  end.

(** [m * 10^e] rounded to a double. *)
Definition decimal_value (m e : Z) : number :=
  if 0 <=? e then round_double (inject_Z (m * 10 ^ e))
  else round_double (Qmake m (Z.to_pos (10 ^ (- e)))).

(** [ExponentPart_opt] followed by the end of the string: the exponent. *)
Definition parse_exponent (s : jsstring) : option Z :=
  match s with
  | [] => Some 0
  | c :: r =>
    if (c =? 101) || (c =? 69) then
      let '(neg, r') :=
        match r with
        | 45 :: t => (true, t)
        | 43 :: t => (false, t)
        | _ => (false, r)
        end in
      match take_digits r' with
      | ((_ :: _) as ds, []) =>
        Some (if neg : bool then - digits_value 10 ds else digits_value 10 ds)
      | _ => None
      end
    else None
  end.

(** [StrUnsignedDecimalLiteral] other than [Infinity]. *)
Definition parse_unsigned_decimal (s : jsstring) : number :=
  let '(ip, r1) := take_digits s in
  let '(fp, r2) :=
    match r1 with
    | 46 :: t => take_digits t
    | _ => ([], r1)
    end in
  match ip ++ fp with
  | [] => NaN
  | ds =>
    match parse_exponent r2 with
    | Some e => decimal_value (digits_value 10 ds) (e - Z.of_nat (List.length fp))
    | None => NaN
    end
  end.

Definition parse_radix (radix : Z) (s : jsstring) : number :=
  match s with
  | [] => NaN
  | _ =>
    match all_digits radix s with
    | Some ds => round_double (inject_Z (digits_value radix ds))
    | None => NaN
    end
  end.

Definition Infinity_lit : jsstring := u "Infinity".

Definition parse_decimal (s : jsstring) : number :=
  let '(neg, r) :=
    match s with
    | 45 :: t => (true, t)
    | 43 :: t => (false, t)
    | _ => (false, s)
    end in
  let v := if str_eqb r Infinity_lit then PInf else parse_unsigned_decimal r in
  if neg : bool then num_opp v else v.

Definition StringToNumber (s : jsstring) : number :=
  match trim s with
  | [] => Fin 0
  | 48 :: x :: r =>
    if (x =? 120) || (x =? 88) then parse_radix 16 r
    else if (x =? 111) || (x =? 79) then parse_radix 8 r
    else if (x =? 98) || (x =? 66) then parse_radix 2 r
    else parse_decimal (trim s)
  | t => parse_decimal t
  end.

(** *** [Number::toString]: the shortest decimal that reads back as the
    number *)

(** The decimal digits of a natural number. *)
Definition dec (z : Z) : jsstring :=
  u (NilZero.string_of_uint (N.to_uint (Z.to_N z))).

(** [10^t <= n / d]. *)
Definition ge_pow10 (n : Z) (d : positive) (t : Z) : bool :=
  if 0 <=? t then Zpos d * 10 ^ t <=? n else Zpos d <=? n * 10 ^ (- t).

(** The largest [t] with [10^t <= n / d], for a positive double [n / d]. *)
Definition floor_log10 (n : Z) (d : positive) : Z :=
  let est := (floor_log2 n d * 30103) / 100000 in
  if ge_pow10 n d (est + 1) then est + 1
  else if ge_pow10 n d est then est
  else est - 1.

Definition num_eqb (a b : number) : bool :=
  match num_compare a b with
  | Some Eq => true
  | _ => false
  end.

(** The [k]-digit integers [s] next to [x / 10^(n-k)] for which
    [s * 10^(n-k)] reads back as [x], the nearer one first. *)
Definition digits_at (x : Q) (n k : Z) : option (Z * Z) :=
  let t := n - k in
  let sn := if 0 <=? t then Qnum x else Qnum x * 10 ^ (- t) in
  let sd := if 0 <=? t then Zpos (Qden x) * 10 ^ t else Zpos (Qden x) in
  let lo := sn / sd in
  let hi := lo + 1 in
  let ok s := num_eqb (decimal_value s t) (Fin x) in
  let norm s := if s =? 10 ^ k then (10 ^ (k - 1), n + 1) else (s, n) in
  let lo_first :=
    match Z.compare (2 * (sn mod sd)) sd with
    | Lt => true
    | Gt => false
    | Eq => Z.even lo
    end in
  match ok lo, ok hi with
  | true, true => Some (norm (if lo_first then lo else hi))
  | true, false => Some (norm lo)
  | false, true => Some (norm hi)
  | false, false => None
  end.

Fixpoint shortest_digits (x : Q) (n : Z) (ks : list Z) : Z * Z * Z :=
  match ks with
  | [] => (17, Qnum x * 10 ^ (17 - n) / Zpos (Qden x), n)
  | k :: rest =>
    match digits_at x n k with
    | Some (s, n') => (k, s, n')
    | None => shortest_digits x n rest
    end
  end.

Definition zeros (n : Z) : jsstring := repeat 48 (Z.to_nat n).

(** The text of a positive double. *)
Definition positive_to_string (x : Q) : jsstring :=
  let n0 := floor_log10 (Qnum x) (Qden x) + 1 in
  let '(k, s, n) :=
    shortest_digits x n0 [1; 2; 3; 4; 5; 6; 7; 8; 9; 10; 11; 12; 13; 14; 15; 16; 17] in
  let ds := dec s in
  if (k <=? n) && (n <=? 21) then ds ++ zeros (n - k)
  else if (0 <? n) && (n <=? 21)
  then firstn (Z.to_nat n) ds ++ [46] ++ skipn (Z.to_nat n) ds
  else if (-6 <? n) && (n <=? 0) then [48; 46] ++ zeros (- n) ++ ds
  else
    let e := n - 1 in
    let sign := if e <? 0 then 45 else 43 in
    let mant := if k =? 1 then ds else firstn 1 ds ++ [46] ++ skipn 1 ds in
    mant ++ [101; sign] ++ dec (Z.abs e).

Definition NumberToString (x : number) : jsstring :=
  match x with
  | NaN => u "NaN"
  | PInf => u "Infinity"
  | NInf => u "-Infinity"
  | Fin q =>
    match Qnum q with
    | Z0 => [48]
    | Zpos _ => positive_to_string q
    | Zneg _ => 45 :: positive_to_string (Qopp q)
    end
  end.

(** ** JavaScript values

    What a JSON body, a query string or a parsed completion can hold, and
    [undefined] for what is absent. *)

#[warnings="-register-all"]
Inductive value : Type :=
| VUndefined
| VNull
| VBool (b : bool)
| VNum (n : number)
| VStr (s : jsstring)
| VArr (xs : list value)
| VObj (props : list (jsstring * value)).

(** [ToBoolean]: what [!v], [v || d] and [v && w] test. *)
Definition ToBoolean (v : value) : bool :=
  match v with
  | VUndefined | VNull => false
  | VBool b => b
  | VNum NaN => false
  | VNum (Fin q) => negb (Qnum q =? 0)
  | VNum _ => true
  | VStr s => nonEmpty s
  | VArr _ | VObj _ => true
  end.

(** [props] has an own property [k]. *)
Fixpoint has_own (k : jsstring) (props : list (jsstring * value)) : bool :=
  match props with
  | [] => false
  | (k', _) :: rest => str_eqb k' k || has_own k rest
  end.

(** All the results, when none is missing. *)
Fixpoint sequence {A : Type} (xs : list (option A)) : option (list A) :=
  match xs with
  | [] => Some []
  | None :: _ => None
  | Some x :: rest =>
    match sequence rest with
    | Some r => Some (x :: r)
    | None => None
    end
  end.

(** [String(v)], [None] when it throws a [TypeError]. An array prints its
    elements joined by commas, [null] and [undefined] elements as nothing. A
    plain object prints as "[object Object]" through the [toString] it
    inherits; an object with an own property [toString] has lost it (no
    value of these is a function), and cannot be converted: the conversion
    throws, and so does that of an array that holds such an object. *)
Fixpoint ToString (v : value) : option jsstring :=
  match v with
  | VUndefined => Some (u "undefined")
  | VNull => Some (u "null")
  | VBool true => Some (u "true")
  | VBool false => Some (u "false")
  | VNum n => Some (NumberToString n)
  | VStr s => Some s
  | VArr xs =>
    option_map (join [44])
      (sequence
         (map (fun e =>
                 match e with
                 | VUndefined | VNull => Some []
                 | _ => ToString e
                 end) xs))
  | VObj props =>
    if has_own (u "toString") props then None else Some (u "[object Object]")
  end.

(** [Number(v)], [None] when it throws a [TypeError]: an object or an array
    is converted to text first. *)
Definition ToNumber (v : value) : option number :=
  match v with
  | VUndefined => Some NaN
  | VNull => Some (Fin 0)
  | VBool true => Some (Fin 1)
  | VBool false => Some (Fin 0)
  | VNum n => Some n
  | VStr s => Some (StringToNumber s)
  | VArr _ | VObj _ => option_map StringToNumber (ToString v)
  end.

(** [a || b]. *)
Definition js_or (a b : value) : value := if ToBoolean a then a else b.

Fixpoint lookup (k : jsstring) (props : list (jsstring * value)) : value :=
  match props with
  | [] => VUndefined
  | (k', v) :: rest => if str_eqb k' k then v else lookup k rest
  end.

(** [v.k] for the property names the handlers read ([count], [q], [text],
    [level], [rate], [pauseMs], [sentence], [words], [he]), none of which a
    built-in prototype defines: the own property of an object, [undefined] on
    anything else. *)
Definition get (k : string) (v : value) : value :=
  match v with
  | VObj props => lookup (u k) props
  | _ => VUndefined
  end.

(** [x = d] in a destructuring pattern: the default replaces [undefined]
    only. *)
Definition default (v d : value) : value :=
  match v with
  | VUndefined => d
  | _ => v
  end.

(** [v[i]] on an array. *)
Definition index (v : value) (i : nat) : value :=
  match v with
  | VArr xs => nth i xs VUndefined
  | _ => VUndefined
  end.

(** ** [JSON.parse]

    The JSON grammar: the four white-space characters, the literals [true],
    [false] and [null], numbers, strings with their escapes, arrays and
    objects; a repeated key keeps its place and takes the last value. The
    fuel bounds the recursion and [JSON_parse] gives enough of it: every
    recursive call has read a character. *)

Definition isJsonWhite (c : Z) : bool :=
  (c =? 32) || (c =? 9) || (c =? 10) || (c =? 13).

Fixpoint skip_ws (s : jsstring) : jsstring :=
  match s with
  | [] => []
  | c :: r => if isJsonWhite c then skip_ws r else s
  end.

(** The rest of [s] after the prefix [p], when [s] starts with [p]. *)
Fixpoint strip_prefix (p s : jsstring) : option jsstring :=
  match p, s with
  | [], _ => Some s
  | _ :: _, [] => None
  | a :: p', b :: s' => if a =? b then strip_prefix p' s' else None
  end.

Definition hex4 (a b c d : Z) : option Z :=
  match digit_in 16 a, digit_in 16 b, digit_in 16 c, digit_in 16 d with
  | Some x, Some y, Some z, Some w => Some (((x * 16 + y) * 16 + z) * 16 + w)
  | _, _, _, _ => None
  end.

Definition simple_escape (e : Z) : option Z :=
  if (e =? 34) || (e =? 92) || (e =? 47) then Some e
  else if e =? 98 then Some 8
  else if e =? 102 then Some 12
  else if e =? 110 then Some 10
  else if e =? 114 then Some 13
  else if e =? 116 then Some 9
  else None.

(** The characters of a string after its opening quote, up to the closing
    one, and what follows. *)
Fixpoint parse_string (s : jsstring) : option (jsstring * jsstring) :=
  match s with
  | [] => None
  | c :: r =>
    if c =? 34 then Some ([], r)
    else if c <? 32 then None
    else if c =? 92 then
      match r with
      | [] => None
      | e :: r1 =>
        if e =? 117 then
          match r1 with
          | h1 :: h2 :: h3 :: h4 :: r2 =>
            match hex4 h1 h2 h3 h4, parse_string r2 with
            | Some x, Some (t, rest) => Some (x :: t, rest)
            | _, _ => None
            end
          | _ => None
          end
        else
          match simple_escape e, parse_string r1 with
          | Some x, Some (t, rest) => Some (x :: t, rest)
          | _, _ => None
          end
      end
    else
      match parse_string r with
      | Some (t, rest) => Some (c :: t, rest)
      | None => None
      end
  end.

(** A JSON number at the head of [s]. *)
Definition parse_number (s : jsstring) : option (number * jsstring) :=
  let '(neg, s1) :=
    match s with
    | c :: t => if c =? 45 then (true, t) else (false, s)
    | [] => (false, s)
    end in
  let '(ip, r1) := take_digits s1 in
  match ip with
  | [] => None
  | d0 :: more =>
    if (d0 =? 0) && nonEmpty more then None
    else
      let frac :=
        match r1 with
        | c :: t =>
          if c =? 46 then
            match take_digits t with
            | ([], _) => None
            | (fp, r2) => Some (fp, r2)
            end
          else Some ([], r1)
        | [] => Some ([], r1)
        end in
      match frac with
      | None => None
      | Some (fp, r2) =>
        let expo :=
          match r2 with
          | c :: t =>
            if (c =? 101) || (c =? 69) then
              let '(eneg, t') :=
                match t with
                | x :: t1 =>
                  if x =? 45 then (true, t1)
                  else if x =? 43 then (false, t1) else (false, t)
                | [] => (false, t)
                end in
              match take_digits t' with
              | ([], _) => None
              | (ds, r3) =>
                Some ((if eneg : bool then - digits_value 10 ds
                       else digits_value 10 ds), r3)
              end
            else Some (0, r2)
          | [] => Some (0, r2)
          end in
        match expo with
        | None => None
        | Some (e, r3) =>
          let v := decimal_value (digits_value 10 (ip ++ fp))
                                 (e - Z.of_nat (List.length fp)) in
          Some ((if neg : bool then num_opp v else v), r3)
        end
      end
  end.

(** [props] with the property [k] set to [v]. *)
Fixpoint set_prop (k : jsstring) (v : value) (props : list (jsstring * value))
  : list (jsstring * value) :=
  match props with
  | [] => [(k, v)]
  | (k', v') :: rest =>
    if str_eqb k' k then (k', v) :: rest else (k', v') :: set_prop k v rest
  end.

Fixpoint parse_value (fuel : nat) (s : jsstring) : option (value * jsstring) :=
  match fuel with
  | O => None
  | S f =>
    match skip_ws s with
    | [] => None
    | c :: r =>
      if c =? 123 then
        match skip_ws r with
        | c' :: r' =>
          if c' =? 125 then Some (VObj [], r') else parse_members f r []
        | [] => None
        end
      else if c =? 91 then
        match skip_ws r with
        | c' :: r' =>
          if c' =? 93 then Some (VArr [], r') else parse_elements f r []
        | [] => None
        end
      else if c =? 34 then
        match parse_string r with
        | Some (t, rest) => Some (VStr t, rest)
        | None => None
        end
      else if c =? 116 then
        option_map (fun rest => (VBool true, rest)) (strip_prefix (u "rue") r)
      else if c =? 102 then
        option_map (fun rest => (VBool false, rest)) (strip_prefix (u "alse") r)
      else if c =? 110 then
        option_map (fun rest => (VNull, rest)) (strip_prefix (u "ull") r)
      else
        match parse_number (c :: r) with
        | Some (n, rest) => Some (VNum n, rest)
        | None => None
        end
    end
  end

with parse_elements (fuel : nat) (s : jsstring) (acc : list value)
  : option (value * jsstring) :=
  match fuel with
  | O => None
  | S f =>
    match parse_value f s with
    | None => None
    | Some (v, r) =>
      match skip_ws r with
      | c :: r' =>
        if c =? 44 then parse_elements f r' (v :: acc)
        else if c =? 93 then Some (VArr (rev (v :: acc)), r')
        else None
      | [] => None
      end
    end
  end

with parse_members (fuel : nat) (s : jsstring) (acc : list (jsstring * value))
  : option (value * jsstring) :=
  match fuel with
  | O => None
  | S f =>
    match skip_ws s with
    | c :: r =>
      if c =? 34 then
        match parse_string r with
        | None => None
        | Some (k, r1) =>
          match skip_ws r1 with
          | c1 :: r2 =>
            if c1 =? 58 then
              match parse_value f r2 with
              | None => None
              | Some (v, r3) =>
                match skip_ws r3 with
                | c3 :: r4 =>
                  if c3 =? 44 then parse_members f r4 (set_prop k v acc)
                  else if c3 =? 125 then Some (VObj (set_prop k v acc), r4)
                  else None
                | [] => None
                end
              end
            else None
          | [] => None
          end
        end
      else None
    | [] => None
    end
  end.

(** [JSON.parse(s)]: [None] when it throws a [SyntaxError]. *)
Definition JSON_parse (s : jsstring) : option value :=
  match parse_value (2 * List.length s + 2) s with
  | Some (v, rest) =>
    match skip_ws rest with
    | [] => Some v
    | _ :: _ => None
    end
  | None => None
  end.

(** ** The server *)

(** Rocq's strings have no escape for the double quote: in a literal of the
    source that holds one, a backquote stands for it. *)
Definition dq (s : jsstring) : jsstring :=
  map (fun c => if c =? 96 then 34 else c) s.

(** What a handler throws or catches, as [String(e)] shows it in the
    [details] of a 500 response: an error of a provider's client, the
    [SyntaxError] of [JSON.parse], the handler's own error for a completion
    with no JSON, and the [TypeError] of a conversion to text or to a
    number. *)
Inductive thrown : Type :=
| ClientError (e : jsstring)
| JsonSyntaxError (text : jsstring)
| NoJsonError
| ConversionError.

(** What a handler sends. *)
Inductive response : Type :=
| Json (status : Z) (body : value)
| JsonError (status : Z) (error : jsstring) (details : thrown)
| Audio (contentType : jsstring) (contentLength : Z) (data : list Z).

(** The result of [openai.chat.completions.create]: the call, or the reading
    of its first choice, throws [e], shown as [String(e)]; or it gives
    [choices[0].message.content], a string or [null]. *)
Inductive completion : Type :=
| Rejected (e : jsstring)
| Completed (content : option jsstring).

(** The result of the speech synthesis: the set-up throws, the synthesis
    completes with audio data, ends for another reason, its result cannot be
    handled, or the error callback runs. *)
Inductive synthesis : Type :=
| SetupThrew (e : jsstring)
| SynthesizingAudioCompleted (audioData : list Z)
| NotCompleted (reason : jsstring)
| HandlingThrew (e : jsstring)
| SynthesisError (err : jsstring).

(** The result of the request to the news provider. *)
Inductive news_result : Type :=
| NewsData (status totalResults articles : value)
| NewsFailed (details : value).

Record news_params : Type := {
  np_q : jsstring;
  np_from : jsstring;
  np_sortBy : jsstring;
  np_language : jsstring;
  np_pageSize : number
}.

(** A handler answers at once, or makes one outbound call and answers from
    its result, or throws before it has answered or called: the statements
    of a handler that stand before its [try] are not guarded, and what
    becomes of the request then is not decided in this file. *)
Inductive handler : Type :=
| Respond (r : response)
| CallNews (params : news_params) (k : news_result -> response)
| CallCompletion (model prompt : jsstring) (k : completion -> response)
| CallSpeech (ssml : jsstring) (k : synthesis -> response)
| Throws (e : thrown).

(** The outbound calls a handler makes. *)
Definition calls (h : handler) : nat :=
  match h with
  | Respond _ | Throws _ => 0%nat
  | _ => 1%nat
  end.

Definition obj1 (k : string) (v : value) : value := VObj [(u k, v)].

Definition error_body (msg : string) : value := obj1 "error" (VStr (u msg)).

(** *** Start-up *)

Definition required : list jsstring :=
  [u "NEWSAPI_KEY"; u "OPENAI_API_KEY"; u "AZURE_SPEECH_KEY";
   u "AZURE_SPEECH_REGION"].

(** The environment: the variables that are set, each with its text. *)
Definition environment := list (jsstring * jsstring).

(** [process.env[k]]. *)
Fixpoint process_env (env : environment) (k : jsstring) : value :=
  match env with
  | [] => VUndefined
  | (k', v) :: rest => if str_eqb k' k then VStr v else process_env rest k
  end.

Definition missing (env : environment) : list jsstring :=
  filter (fun k => negb (ToBoolean (process_env env k))) required.

Inductive startup_result : Type :=
| Exit (code : Z) (diagnostic : jsstring)
| Listen (port : value).

Definition startup (env : environment) : startup_result :=
  if negb (Z.of_nat (List.length (missing env)) =? 0)
  then Exit 1 (u "Missing env vars:" ++ [32] ++ join (u ", ") (missing env))
  else Listen (js_or (process_env env (u "PORT")) (VNum (num 3001))).

(** *** News *)

(** [count]: [None] when [Number] throws. *)
Definition count (query : value) : option number :=
  option_map (fun n => Math_max (num 1) (Math_min (num 20) n))
    (ToNumber (js_or (get "count" query) (VNum (num 3)))).

(** [from] is the date seven days before the clock's, as [YYYY-MM-DD]. The
    two conversions stand before the [try]. *)
Definition news_handler (from : jsstring) (query : value) : handler :=
  match count query, ToString (js_or (get "q" query) (VStr (u "India"))) with
  | Some n, Some q =>
    CallNews
      {| np_q := q; np_from := from; np_sortBy := u "publishedAt";
         np_language := u "en"; np_pageSize := n |}
      (fun r =>
         match r with
         | NewsData status totalResults articles =>
           Json 200
             (VObj [(u "status", status); (u "totalResults", totalResults);
                    (u "articles", articles)])
         | NewsFailed details =>
           Json 500
             (VObj [(u "error", VStr (u "NewsAPI request failed"));
                    (u "details", details)])
         end)
  | _, _ => Throws ConversionError
  end.

(** *** Summarize *)

Definition levelGuide (level : value) : jsstring :=
  match level with
  | VStr s =>
    if str_eqb s (u "beginner") then
      lit "הינדית פשוטה מאוד, משפטים קצרים מאוד, אוצר מילים בסיסי."
    else if str_eqb s (u "intermediate") then
      lit "הינדית פשוטה אך עשירה יותר, עדיין משפטים קצרים."
    else
      lit "הינדית מתקדמת יותר, אך תמציתית וברורה."
  | _ =>
    lit "הינדית מתקדמת יותר, אך תמציתית וברורה."
  end.

(** The lines of the prompt before the guide and between the guide and the
    text. *)
Definition summarize_head : jsstring :=
  lit "כתוב 4–6 משפטים קצרים שמסכמים את הידיעה.".

Definition summarize_rules : list jsstring :=
    [[];
     lit "כללים חשובים:";
     lit "- כל משפט בהינדית בלבד (כתב דוואנגרי).";
     lit "- מיד אחרי כל משפט בהינדית – שורה נפרדת עם תרגום לעברית בלבד.";
     lit "- אסור להשתמש באנגלית בכלל.";
     lit "- העברית קצרה וברורה.";
     lit "- אל תעתיק משפטים מהמקור.";
     [];
     lit "פורמט חובה:";
     lit "[משפט בהינדית]";
     lit "[תרגום לעברית]";
     [];
     lit "[משפט בהינדית]";
     lit "[תרגום לעברית]";
     [];
     lit "ידיעה:"].

(** The prompt, from the guide and the text [String(text)] that the template
    holds in the places of [levelGuide] and [text]. *)
Definition summarize_prompt (guide text : jsstring) : jsstring :=
  trim
    ([10]
     ++ join [10] ([summarize_head; guide] ++ summarize_rules ++ [text])
     ++ [10]).

Definition hasHebrew (s : jsstring) : bool := has_in_range 1424 1535 s.

Definition hasDeva (s : jsstring) : bool := has_in_range 2304 2431 s.

(** The function mapped over the lines of the completion. *)
Definition keep_line (line : jsstring) : jsstring :=
  if negb (hasHebrew line) && negb (hasDeva line) then [] else trim line.

(** The lines of the result, before they are joined. *)
Definition kept_lines (content : jsstring) : list jsstring :=
  filter nonEmpty (map keep_line (split_char 10 content)).

Definition filter_result (content : jsstring) : jsstring :=
  join [10] (kept_lines content).

Definition content_or_empty (content : option jsstring) : jsstring :=
  match content with
  | Some s => s
  | None => []
  end.

Definition model : jsstring := u "gpt-4.1-mini".

(** The template of the prompt stands before the [try]: when [text] cannot
    be converted to text, the handler throws. *)
Definition summarize_handler (body : value) : handler :=
  let b := js_or body (VObj []) in
  let text := get "text" b in
  let level := default (get "level" b) (VStr (u "beginner")) in
  if negb (ToBoolean text) then Respond (Json 400 (error_body "Missing text"))
  else
    match ToString text with
    | None => Throws ConversionError
    | Some t =>
      CallCompletion model (summarize_prompt (levelGuide level) t)
        (fun c =>
           match c with
           | Rejected e => JsonError 500 (u "OpenAI error") (ClientError e)
           | Completed content =>
             Json 200
               (obj1 "result" (VStr (filter_result (content_or_empty content))))
           end)
    end.

(** *** SSML helpers *)

(** [escapeXml] is mapped over strings: [String(s)] is [s]. *)
Definition escapeXml (s : jsstring) : jsstring :=
  replaceAll 39 (u "&apos;")
    (replaceAll 34 (u "&quot;")
       (replaceAll 62 (u "&gt;")
          (replaceAll 60 (u "&lt;") (replaceAll 38 (u "&amp;") s)))).

(** The [r] of [ratePercentToSsmlRate]: [None] when [Number] throws. *)
Definition effective_rate (ratePercent : value) : option number :=
  option_map (fun n => Math_max (num 60) (Math_min (num 140) n))
    (ToNumber (js_or ratePercent (VNum (num 100)))).

(** The thresholds of [ratePercentToSsmlRate] on its [r]. *)
Definition tier_of (r : number) : jsstring :=
  if num_leb r (num 80) then u "x-slow"
  else if num_leb r (num 95) then u "slow"
  else if num_leb r (num 110) then u "medium"
  else if num_leb r (num 125) then u "fast"
  else u "x-fast".

Definition ratePercentToSsmlRate (ratePercent : value) : option jsstring :=
  option_map tier_of (effective_rate ratePercent).

(** [safePause]: [None] when [Number] throws. *)
Definition safePause (pauseMs : value) : option number :=
  option_map (fun n => Math_max (num 0) (Math_min (num 2000) n))
    (ToNumber (js_or pauseMs (VNum (num 0)))).

(** [s.trim().split(/\s+/).filter(Boolean)]. *)
Definition words_of_text (s : jsstring) : list jsstring :=
  filter nonEmpty (split_ws (trim s)).

(** [String(v).trim().split(/\s+/).filter(Boolean)]: [None] when [String]
    throws. *)
Definition words_of (v : value) : option (list jsstring) :=
  option_map words_of_text (ToString v).

(** [joiner], from the value of [safePause]. *)
Definition joiner_of (pause : number) : jsstring :=
  if num_gtb pause (num 0)
  then dq (u "<break time=`") ++ NumberToString pause ++ dq (u "ms`/>")
  else [32].

(** [body]: [None] when a conversion throws. *)
Definition ssml_body (text pauseMs : value) : option jsstring :=
  match safePause pauseMs, words_of text with
  | Some pause, Some words => Some (join (joiner_of pause) (map escapeXml words))
  | _, _ => None
  end.

(** The template of the markup, around the tier and the body. *)
Definition ssml_template (rateTag body : jsstring) : jsstring :=
  trim
    ([10]
     ++ dq (u "<speak version=`1.0` xml:lang=`hi-IN` xmlns=`http://www.w3.org/2001/10/synthesis`>")
     ++ [10] ++ dq (u "  <voice name=`hi-IN-SwaraNeural`>")
     ++ [10] ++ dq (u "    <prosody rate=`") ++ rateTag ++ dq (u "`>")
     ++ [10] ++ u "      " ++ body
     ++ [10] ++ u "    </prosody>"
     ++ [10] ++ u "  </voice>"
     ++ [10] ++ u "</speak>").

(** [buildHindiSsml]: [None] when [Number(ratePercent)], [Number(pauseMs)]
    or [String(text)] throws. *)
Definition buildHindiSsml (text ratePercent pauseMs : value) : option jsstring :=
  match ratePercentToSsmlRate ratePercent, ssml_body text pauseMs with
  | Some rateTag, Some body => Some (ssml_template rateTag body)
  | _, _ => None
  end.

(** *** Speak *)

(** The call of [buildHindiSsml] stands before the [try]: when it throws,
    the handler throws. *)
Definition speak_handler (body : value) : handler :=
  let b := js_or body (VObj []) in
  let text := get "text" b in
  let rate := default (get "rate" b) (VNum (num 100)) in
  let pauseMs := default (get "pauseMs" b) (VNum (num 0)) in
  if negb (ToBoolean text) then Respond (Json 400 (error_body "Missing text"))
  else
    match buildHindiSsml text rate pauseMs with
    | None => Throws ConversionError
    | Some ssml =>
      CallSpeech ssml
        (fun s =>
           match s with
           | SetupThrew e =>
             JsonError 500 (u "Speech setup error") (ClientError e)
           | SynthesizingAudioCompleted audioData =>
             Audio (u "audio/mpeg") (Z.of_nat (List.length audioData)) audioData
           | NotCompleted reason =>
             Json 500
               (VObj [(u "error", VStr (u "Speech not completed"));
                      (u "reason", VStr reason)])
           | HandlingThrew e =>
             JsonError 500 (u "Speech handling error") (ClientError e)
           | SynthesisError err =>
             JsonError 500 (u "Speech error") (ClientError err)
           end)
    end.

(** *** Word map *)

Fixpoint mapi {A B : Type} (f : A -> nat -> B) (i : nat) (xs : list A) : list B :=
  match xs with
  | [] => []
  | x :: rest => f x i :: mapi f (S i) rest
  end.

(** The lines of the prompt before the list of the words. *)
Definition wordmap_head : list jsstring :=
    [lit "את/ה מתרגם/ת להעברית בלבד.";
     lit "החזר/י JSON בלבד, בדיוק בפורמט:";
     dq (lit "{`words`:[{`hi`:`...`,`he`:`...`}, ...]}");
     [];
     lit "חוקים (חשוב מאוד):";
     dq (lit "- `hi` חייב להיות בדיוק המילה כפי שמופיעה ברשימה שאני נותנת לך.");
     dq (lit "- `he` חייב להיות בעברית בלבד (אותיות עבריות). אסור אנגלית.");
     dq (lit "- `he` תרגום קצר (מילה אחת או עד 3 מילים).");
     lit "- אם זו מילת יחס/חיבור/כינוי וכו' שאין לה תרגום עצמאי, תן משמעות קצרה בעברית.";
     lit "- אל תוסיף שום טקסט מעבר ל-JSON. בלי הסברים. בלי Markdown.";
     [];
     lit "רשימת המילים (בסדר הזה, בדיוק):"].

Definition wordmap_prompt (words : list jsstring) : jsstring :=
  trim
    ([10]
     ++ join [10]
          (wordmap_head
           ++ [join [10]
                 (mapi (fun w i =>
                          NumberToString (num (Z.of_nat i + 1)) ++ u ". " ++ w)
                    0 words)])
     ++ [10]).

(** The two attempts to read the completion as JSON. *)
Definition parse_raw (raw : jsstring) : thrown + value :=
  match JSON_parse raw with
  | Some parsed => inr parsed
  | None =>
    let start := indexOf 123 raw in
    let end_ := lastIndexOf 125 raw in
    if (0 <=? start) && (start <? end_) then
      match JSON_parse (slice raw start (end_ + 1)) with
      | Some parsed => inr parsed
      | None => inl (JsonSyntaxError (slice raw start (end_ + 1)))
      end
    else inl NoJsonError
  end.

(** [Array.isArray(parsed?.words) ? parsed.words : []]. *)
Definition out_of (parsed : value) : value :=
  match get "words" parsed with
  | VArr xs => VArr xs
  | _ => VArr []
  end.

(** [item && item.he ? String(item.he) : ""]: [None] when [String]
    throws. *)
Definition he_of (item : value) : option jsstring :=
  if ToBoolean item && ToBoolean (get "he" item)
  then ToString (get "he" item) else Some [].

(** The function mapped, with the index, over the words: [None] when it
    throws. *)
Definition normalize_word (out : value) (w : jsstring) (idx : nat)
  : option value :=
  let item := index out idx in
  match he_of item with
  | None => None
  | Some he =>
    let he := if negb (hasHebrew he) then [] else he in
    Some (VObj [(u "hi", VStr w); (u "he", VStr he)])
  end.

(** [words.map(...)]: [None] when the function throws at a word. *)
Definition normalized (words : list jsstring) (parsed : value)
  : option (list value) :=
  sequence (mapi (normalize_word (out_of parsed)) 0 words).

(** [String(sentence)] stands before the [try]: when it throws, the handler
    throws. Within the [try], a conversion that throws is caught as every
    other error is. *)
Definition wordmap_handler (body : value) : handler :=
  let sentence := get "sentence" (js_or body (VObj [])) in
  if negb (ToBoolean sentence)
  then Respond (Json 400 (error_body "Missing sentence"))
  else
    match words_of sentence with
    | None => Throws ConversionError
    | Some words =>
      if Z.of_nat (List.length words) =? 0
      then Respond (Json 200 (obj1 "words" (VArr [])))
      else
        CallCompletion model (wordmap_prompt words)
          (fun c =>
             match c with
             | Rejected e => JsonError 500 (u "Wordmap error") (ClientError e)
             | Completed content =>
               let raw := trim (content_or_empty content) in
               match parse_raw raw with
               | inr parsed =>
                 match normalized words parsed with
                 | Some entries =>
                   Json 200 (obj1 "words" (VArr entries))
                 | None => JsonError 500 (u "Wordmap error") ConversionError
                 end
               | inl e => JsonError 500 (u "Wordmap error") e
               end
             end)
    end.

(** ** The words of the specification *)

(** [clamp(x, lo, hi)]: [x] limited to the interval from [lo] to [hi]. NaN
    is below and above nothing, and stays NaN. *)
Definition clamp (x lo hi : number) : number :=
  if num_ltb x lo then lo else if num_ltb hi x then hi else x.


(** A character of the Hebrew block U+0590-U+05FF or of the Devanagari block
    U+0900-U+097F. *)
Definition in_script (c : Z) : Prop :=
  (1424 <= c <= 1535) \/ (2304 <= c <= 2431).

(** A configuration value is usable when the variable is set to a text that
    is not empty. *)
Definition configured (env : environment) (k : jsstring) : Prop :=
  exists v, process_env env k = VStr v /\ v <> [].


(** The three endpoints that require an input, the field each requires and
    the message of its 400 response. *)
Inductive endpoint : Type :=
| Summarize
| Speak
| Wordmap.

Definition handler_of (ep : endpoint) : value -> handler :=
  match ep with
  | Summarize => summarize_handler
  | Speak => speak_handler
  | Wordmap => wordmap_handler
  end.

Definition required_field (ep : endpoint) : string :=
  match ep with
  | Summarize | Speak => "text"
  | Wordmap => "sentence"
  end.

Definition missing_message (ep : endpoint) : string :=
  match ep with
  | Summarize | Speak => "Missing text"
  | Wordmap => "Missing sentence"
  end.

(** The field of the body an endpoint requires, as the handler reads it. *)
Definition input_of (ep : endpoint) (body : value) : value :=
  get (required_field ep) (js_or body (VObj [])).

(** An environment in which the four required variables are set and the
    first one is set to the empty text. *)
Definition env_empty_key : environment :=
  [(u "NEWSAPI_KEY", []); (u "OPENAI_API_KEY", u "sk-1");
   (u "AZURE_SPEECH_KEY", u "key"); (u "AZURE_SPEECH_REGION", u "westeurope")].

(** A query string whose [count] is not a number. *)
Definition query_count_abc : value := obj1 "count" (VStr (u "abc")).

(** [sub] is the part of [raw] from its first opening brace through its last
    closing brace, the latter standing after the former. *)
Definition braced (raw sub : jsstring) : Prop :=
  exists pre mid post,
    raw = pre ++ 123 :: mid ++ 125 :: post
    /\ ~ In 123 pre /\ ~ In 125 post
    /\ sub = 123 :: mid ++ [125].

(** The example of the specification: the sentence "ek din" and a completion
    that glosses the first word only. *)
Definition body_ek_din : value := obj1 "sentence" (VStr (u "ek din")).

Definition completion_ek : jsstring :=
  dq (lit "{`words`:[{`hi`:`ek`,`he`:`אחד`}]}").

(** A completion that wraps its JSON in extra text. *)
Definition completion_wrapped : jsstring :=
  dq (lit "Sure! {`words`:[{`hi`:`ek`,`he`:`אחד`}]} Done.").

Definition parsed_ek : value :=
  obj1 "words"
    (VArr [VObj [(u "hi", VStr (u "ek")); (u "he", VStr (lit "אחד"))]]).

(** A completion that is JSON as it stands, with a gloss that is an object
    with a [toString] entry of its own. *)
Definition completion_he_object : jsstring :=
  dq (u "{`words`:[{`hi`:`ek`,`he`:{`toString`:`x`}}]}").

(** What [JSON.parse] reads in it. *)
Definition parsed_he_object : value :=
  obj1 "words"
    (VArr [VObj [(u "hi", VStr (u "ek"));
                 (u "he", obj1 "toString" (VStr (u "x")))]]).

(** A request whose sentence is the number 0. *)
Definition body_sentence_zero : value := obj1 "sentence" (VNum (num 0)).

(** An environment with the four required variables set to non-empty
    texts. *)
Definition env_full : environment :=
  [(u "NEWSAPI_KEY", u "n-1"); (u "OPENAI_API_KEY", u "sk-1");
   (u "AZURE_SPEECH_KEY", u "key"); (u "AZURE_SPEECH_REGION", u "westeurope")].

(** A completion of three lines: Devanagari, Latin and Hebrew. *)
Definition completion_three_lines : jsstring :=
  lit "  नमस्ते " ++ [10] ++ u "hello world" ++ [10] ++ lit "שלום".

(** The words of a text: its maximal runs of characters that are not white
    space, in order. *)
Fixpoint tokens (s : jsstring) : list jsstring :=
  match s with
  | [] => []
  | c :: r =>
    if isWhite c then tokens r
    else if startsWhite r || negb (nonEmpty r) then [c] :: tokens r
    else
      match tokens r with
      | [] => [[c]]
      | t :: ts => (c :: t) :: ts
      end
  end.

(** ** Further words for the properties of the code *)

(** What [escapeXml] writes for one character. *)
Definition escape_char (c : Z) : jsstring :=
  if c =? 38 then u "&amp;"
  else if c =? 60 then u "&lt;"
  else if c =? 62 then u "&gt;"
  else if c =? 34 then u "&quot;"
  else if c =? 39 then u "&apos;"
  else [c].

(** One of the five characters [escapeXml] replaces. *)
Definition xml_reserved (c : Z) : Prop :=
  c = 38 \/ c = 60 \/ c = 62 \/ c = 34 \/ c = 39.

(** A word: a text that is not empty and holds no white space. *)
Definition is_word (w : jsstring) : Prop :=
  w <> [] /\ forall c, In c w -> isWhite c = false.

(** An entry of the word map. *)
Definition entry (w he : jsstring) : value :=
  VObj [(u "hi", VStr w); (u "he", VStr he)].

(** The five tiers, from the slowest on, and the place of a tier among
    them. *)
Definition tiers : list jsstring :=
  [u "x-slow"; u "slow"; u "medium"; u "fast"; u "x-fast"].

Definition tier_index (tag : jsstring) : nat :=
  if str_eqb tag (u "x-slow") then 0
  else if str_eqb tag (u "slow") then 1
  else if str_eqb tag (u "medium") then 2
  else if str_eqb tag (u "fast") then 3
  else 4.

(** The place of the tier the thresholds give a number. *)
Definition rank (r : number) : nat :=
  if num_leb r (num 80) then 0
  else if num_leb r (num 95) then 1
  else if num_leb r (num 110) then 2
  else if num_leb r (num 125) then 3
  else 4.

(** The status a response is sent with ([res.send] and [res.json] without
    [res.status] send 200). *)
Definition status_of (r : response) : Z :=
  match r with
  | Json status _ => status
  | JsonError status _ _ => status
  | Audio _ _ _ => 200
  end.

(** Every answer the continuation of a call can give is a 200 or a 500. *)
Definition answers_200_or_500 {A : Type} (k : A -> response) : Prop :=
  forall a, status_of (k a) = 200 \/ status_of (k a) = 500.
(** * Properties *)

(** ** Numbers *)

Lemma num_ltb_fin (x y : Q) :
  num_ltb (Fin x) (Fin y) = (Qnum x * QDen y <? Qnum y * QDen x).
Proof.
  unfold num_ltb, num_compare, Qcompare, Z.ltb.
  destruct (Qnum x * QDen y ?= Qnum y * QDen x); reflexivity.
Qed.

Lemma num_leb_fin (x y : Q) :
  num_leb (Fin x) (Fin y) = (Qnum x * QDen y <=? Qnum y * QDen x).
Proof.
  unfold num_leb, num_compare, Qcompare, Z.leb.
  destruct (Qnum x * QDen y ?= Qnum y * QDen x); reflexivity.
Qed.

(** Case analysis on every comparison of finite numbers in the goal. *)
Ltac cases_ltb :=
  repeat (rewrite ?num_ltb_fin, ?num_leb_fin; simpl;
          match goal with
          | |- context [?x <? ?y] => destruct (Z.ltb_spec x y)
          | |- context [?x <=? ?y] => destruct (Z.leb_spec x y)
          end);
  simpl.

Section Clamp.

Variables a b : Z.
Hypothesis bounds : a <= b.

(** [Math.max(lo, Math.min(hi, x))] is [clamp(x, lo, hi)]. *)
Lemma max_min_clamp (x : number) :
  Math_max (num a) (Math_min (num b) x) = clamp x (num a) (num b).
Proof.
  destruct x as [| | |[n d]]; unfold Math_max, Math_min, clamp, num; simpl;
    try reflexivity.
  - cases_ltb; (reflexivity || lia).
  - assert (Hm : a * Z.pos d <= b * Z.pos d) by nia.
    cases_ltb; (reflexivity || (exfalso; lia)).
Qed.

(** A clamped number that is not NaN lies in the interval. *)
Lemma clamp_bounds (x : number) :
  is_nan x = false ->
  num_leb (num a) (clamp x (num a) (num b)) = true
  /\ num_leb (clamp x (num a) (num b)) (num b) = true.
Proof.
  intros Hx.
  destruct x as [| | |[n d]]; try discriminate; unfold clamp, num; simpl.
  - rewrite !num_leb_fin; simpl. split; apply Z.leb_le; lia.
  - rewrite !num_leb_fin; simpl. split; apply Z.leb_le; lia.
  - assert (Hm : a * Z.pos d <= b * Z.pos d) by nia.
    cases_ltb; split; (reflexivity || (exfalso; lia)).
Qed.

End Clamp.


(** ** Conversions that throw *)

Lemma sequence_length {A : Type} (xs : list (option A)) (ys : list A) :
  sequence xs = Some ys -> List.length ys = List.length xs.
Proof.
  revert ys. induction xs as [|[x|] r IH]; intros ys H; simpl in H.
  - injection H as <-. reflexivity.
  - destruct (sequence r) as [t|]; [|discriminate].
    injection H as <-. simpl. rewrite (IH t eq_refl). reflexivity.
  - discriminate.
Qed.

Lemma sequence_nth_error {A : Type} (xs : list (option A)) (ys : list A) :
  sequence xs = Some ys ->
  forall i, nth_error xs i = option_map Some (nth_error ys i).
Proof.
  revert ys. induction xs as [|[x|] r IH]; intros ys H i; simpl in H.
  - injection H as <-. destruct i; reflexivity.
  - destruct (sequence r) as [t|]; [|discriminate].
    injection H as <-. destruct i as [|i]; [reflexivity|].
    simpl. apply IH. reflexivity.
  - discriminate.
Qed.

Lemma sequence_none {A : Type} (xs : list (option A)) :
  sequence xs = None
  <-> exists i, (i < List.length xs)%nat /\ nth_error xs i = Some None.
Proof.
  induction xs as [|[x|] r IH]; simpl.
  - split; [discriminate|]. intros [i [H _]]. lia.
  - destruct (sequence r) as [t|].
    + split; [discriminate|]. intros [[|i] [L H]]; [discriminate|].
      simpl in H.
      assert (N : @Some (list A) t = None); [|discriminate].
      apply IH. exists i. split; [lia|exact H].
    + split; [|reflexivity]. intros _.
      destruct (proj1 IH eq_refl) as [i [L H]].
      exists (S i). split; [lia|exact H].
  - split; [|reflexivity]. intros _. exists 0%nat. split; [lia|reflexivity].
Qed.

Lemma has_own_throws (props : list (jsstring * value)) :
  ToString (VObj props) = None <-> has_own (u "toString") props = true.
Proof.
  simpl. destruct (has_own (u "toString") props); split; intros H;
    (reflexivity || discriminate).
Qed.

(** ** The check of the required input *)

Lemma falsy_input_400 (ep : endpoint) (body : value) :
  ToBoolean (input_of ep body) = false ->
  handler_of ep body = Respond (Json 400 (error_body (missing_message ep))).
Proof.
  unfold input_of.
  destruct ep; simpl; intros H;
    unfold summarize_handler, speak_handler, wordmap_handler;
    cbv zeta; rewrite H; reflexivity.
Qed.

Lemma truthy_input_not_400 (ep : endpoint) (body : value) :
  ToBoolean (input_of ep body) = true ->
  handler_of ep body <> Respond (Json 400 (error_body (missing_message ep))).
Proof.
  unfold input_of.
  destruct ep; simpl; intros H;
    unfold summarize_handler, speak_handler, wordmap_handler;
    cbv zeta; rewrite H; simpl negb; cbv iota.
  - destruct (ToString _); discriminate.
  - destruct (buildHindiSsml _ _ _); discriminate.
  - destruct (words_of _) as [ws|]; [|discriminate].
    destruct (Z.of_nat (List.length ws) =? 0); discriminate.
Qed.

(** C6. A request without [text] on [/api/summarize] or [/api/speak], or
    without [sentence] on [/api/wordmap], is answered at once with status 400
    and the short message of the endpoint; the handler makes no outbound
    call. *)
Theorem missing_input_400 (ep : endpoint) (body : value) :
  input_of ep body = VUndefined ->
  handler_of ep body = Respond (Json 400 (error_body (missing_message ep)))
  /\ calls (handler_of ep body) = 0%nat.
Proof.
  intros H.
  assert (E : handler_of ep body
              = Respond (Json 400 (error_body (missing_message ep)))).
  { apply falsy_input_400. rewrite H. reflexivity. }
  rewrite E. split; reflexivity.
Qed.

(** C10. The check tests falsiness, not presence: the handler answers with
    the 400 response exactly when the required field is falsy; the empty
    string, 0, [false] and [null] are falsy, so a request that carries one of
    them is answered as the request without the field is, with no outbound
    call. *)
Theorem falsy_input_as_missing (ep : endpoint) (body : value) :
  (handler_of ep body = Respond (Json 400 (error_body (missing_message ep)))
   <-> ToBoolean (input_of ep body) = false)
  /\ (In (input_of ep body) [VStr []; VNum (num 0); VBool false; VNull] ->
      handler_of ep body = Respond (Json 400 (error_body (missing_message ep)))
      /\ handler_of ep body = handler_of ep (VObj [])
      /\ calls (handler_of ep body) = 0%nat).
Proof.
  split.
  - split.
    + intros E. destruct (ToBoolean (input_of ep body)) eqn:T; [|reflexivity].
      exfalso. exact (truthy_input_not_400 ep body T E).
    + apply falsy_input_400.
  - intros Hin.
    assert (T : ToBoolean (input_of ep body) = false).
    { simpl in Hin.
      destruct Hin as [H|[H|[H|[H|[]]]]]; rewrite <- H; reflexivity. }
    rewrite (falsy_input_400 ep body T).
    rewrite (falsy_input_400 ep (VObj [])) by (destruct ep; reflexivity).
    repeat split; reflexivity.
Qed.

(** ** Start-up *)

Lemma process_env_cases (env : environment) (k : jsstring) :
  process_env env k = VUndefined \/ exists v, process_env env k = VStr v.
Proof.
  induction env as [|[k' v] rest IH]; simpl.
  - left; reflexivity.
  - destruct (str_eqb k' k); [right; exists v; reflexivity | exact IH].
Qed.

Lemma configured_truthy (env : environment) (k : jsstring) :
  ToBoolean (process_env env k) = true <-> configured env k.
Proof.
  unfold configured. split.
  - destruct (process_env_cases env k) as [E|[v E]]; rewrite E; simpl.
    + discriminate.
    + intros H. exists v. split; [reflexivity|].
      intros ->. discriminate.
  - intros [v [E Hv]]. rewrite E. destruct v; [contradiction|reflexivity].
Qed.

Lemma missing_spec (env : environment) (k : jsstring) :
  In k (missing env) <-> In k required /\ ~ configured env k.
Proof.
  unfold missing. rewrite filter_In, <- configured_truthy.
  destruct (ToBoolean (process_env env k)); simpl; split; intros [H1 H2];
    split; auto; discriminate.
Qed.

Lemma not_configured (env : environment) (k : jsstring) :
  ~ configured env k
  <-> process_env env k = VUndefined \/ process_env env k = VStr [].
Proof.
  unfold configured. split.
  - intros H. destruct (process_env_cases env k) as [E|[v E]]; [left; exact E|].
    right. destruct v as [|c r]; [exact E|].
    exfalso. apply H. exists (c :: r). split; [exact E|discriminate].
  - intros [E|E] [v [Ev Hv]]; rewrite E in Ev; [discriminate|].
    injection Ev as <-. exact (Hv eq_refl).
Qed.

(** C8, amended. A required variable is missing when it is absent or set to
    the empty text. The diagnostic names exactly the required variables that
    are missing; when one is, the process exits with code 1 and that
    diagnostic; when each of the four is set to a non-empty text, it goes on
    to listen. *)
Theorem startup_check (env : environment) :
  (forall k,
     ~ configured env k
     <-> process_env env k = VUndefined \/ process_env env k = VStr [])
  /\ (forall k, In k (missing env) <-> In k required /\ ~ configured env k)
  /\ ((exists k, In k required /\ ~ configured env k) ->
      startup env
      = Exit 1 (u "Missing env vars: " ++ join (u ", ") (missing env)))
  /\ ((forall k, In k required -> configured env k) ->
      startup env
      = Listen (js_or (process_env env (u "PORT")) (VNum (num 3001)))).
Proof.
  split; [apply not_configured|].
  split; [apply missing_spec|]. split.
  - intros [k Hk]. apply missing_spec in Hk.
    unfold startup. destruct (missing env) as [|m ms]; [contradiction|].
    reflexivity.
  - intros Hall. unfold startup.
    destruct (missing env) as [|m ms] eqn:E; [reflexivity|].
    exfalso.
    assert (Hm : In m (missing env)) by (rewrite E; left; reflexivity).
    apply missing_spec in Hm. destruct Hm as [Hr Hc]. exact (Hc (Hall m Hr)).
Qed.

(** C8 fails as stated: with the four variables present and one of them
    empty, the process exits. *)
Lemma startup_present_but_empty :
  (forall k, In k required -> exists v, process_env env_empty_key k = VStr v)
  /\ startup env_empty_key = Exit 1 (u "Missing env vars: NEWSAPI_KEY").
Proof.
  split; [|reflexivity].
  intros k Hk. simpl in Hk.
  destruct Hk as [H|[H|[H|[H|[]]]]]; rewrite <- H; eexists; reflexivity.
Qed.

(** ** Splitting a text into words *)

Lemma split_ws_white_head (s : jsstring) :
  startsWhite s = true -> exists ts, split_ws s = [] :: ts.
Proof.
  induction s as [|c r IH]; [discriminate|].
  simpl. intros ->.
  destruct (startsWhite r) eqn:E; [exact (IH eq_refl)|].
  eexists. reflexivity.
Qed.

Lemma split_ws_cons (s : jsstring) : exists t ts, split_ws s = t :: ts.
Proof.
  destruct s as [|c r]; simpl; [do 2 eexists; reflexivity|].
  destruct (isWhite c).
  - destruct (startsWhite r) eqn:E.
    + destruct (split_ws_white_head r E) as [ts H]. rewrite H.
      do 2 eexists. reflexivity.
    + do 2 eexists. reflexivity.
  - destruct (split_ws r); do 2 eexists; reflexivity.
Qed.

(** Dropping the empty pieces of [split] leaves the words. *)
Lemma split_ws_tokens (s : jsstring) :
  filter nonEmpty (split_ws s) = tokens s.
Proof.
  induction s as [|c r IH]; [reflexivity|].
  simpl. destruct (isWhite c) eqn:W.
  - destruct (startsWhite r); simpl; exact IH.
  - destruct (split_ws_cons r) as [t [ts E]]. rewrite E in *. simpl.
    destruct r as [|x r'].
    + simpl in E. injection E as <- <-. reflexivity.
    + simpl startsWhite. simpl nonEmpty. rewrite orb_false_r.
      destruct (isWhite x) eqn:X.
      * destruct (split_ws_white_head (x :: r') X) as [ts' E'].
        rewrite E' in E. injection E as <- <-.
        rewrite <- IH. reflexivity.
      * rewrite <- IH.
        simpl in E. rewrite X in E.
        destruct (split_ws r') as [|t' ts'] eqn:R; injection E as <- <-;
          reflexivity.
Qed.

Lemma tokens_trimStart (s : jsstring) : tokens (trimStart s) = tokens s.
Proof.
  induction s as [|c r IH]; [reflexivity|].
  simpl. destruct (isWhite c) eqn:W; [exact IH|].
  simpl. rewrite W. reflexivity.
Qed.

Lemma tokens_white (ws : jsstring) :
  forallb isWhite ws = true -> tokens ws = [].
Proof.
  induction ws as [|c r IH]; [reflexivity|].
  simpl. intros H. apply andb_true_iff in H. destruct H as [-> H]. auto.
Qed.

Lemma tokens_app_white (s ws : jsstring) :
  forallb isWhite ws = true -> tokens (s ++ ws) = tokens s.
Proof.
  intros H. induction s as [|c r IH].
  - simpl. apply tokens_white. exact H.
  - simpl. destruct (isWhite c); [exact IH|].
    rewrite IH. destruct r as [|x r']; [|reflexivity].
    simpl. destruct ws as [|w ws']; [reflexivity|].
    simpl in H. apply andb_true_iff in H. destruct H as [Hw _].
    simpl. rewrite Hw. reflexivity.
Qed.

Lemma trimStart_split (s : jsstring) :
  exists ws, s = ws ++ trimStart s /\ forallb isWhite ws = true.
Proof.
  induction s as [|c r [ws [E H]]]; [exists []; split; reflexivity|].
  simpl. destruct (isWhite c) eqn:W.
  - exists (c :: ws). split; [simpl; rewrite <- E; reflexivity|].
    simpl. rewrite W. exact H.
  - exists []. split; reflexivity.
Qed.

Lemma forallb_rev (f : Z -> bool) (l : jsstring) :
  forallb f l = true -> forallb f (rev l) = true.
Proof.
  rewrite !forallb_forall. intros H x Hx. apply H. apply in_rev. exact Hx.
Qed.

Lemma tokens_trimEnd (s : jsstring) : tokens (trimEnd s) = tokens s.
Proof.
  unfold trimEnd.
  destruct (trimStart_split (rev s)) as [ws [E H]].
  assert (S : s = rev (trimStart (rev s)) ++ rev ws).
  { rewrite <- rev_app_distr, <- E, rev_involutive. reflexivity. }
  rewrite S at 2. symmetry. apply tokens_app_white. apply forallb_rev. exact H.
Qed.

(** [s.trim().split(/\s+/).filter(Boolean)] is the list of the words of
    [s]. *)
Lemma words_of_tokens (s : jsstring) : words_of_text s = tokens s.
Proof.
  unfold words_of_text, trim.
  rewrite split_ws_tokens, tokens_trimEnd, tokens_trimStart. reflexivity.
Qed.

(** The words hold every character that is not white space, in order, and
    nothing else; no word is empty. *)
Lemma tokens_concat (s : jsstring) :
  List.concat (tokens s) = filter (fun c => negb (isWhite c)) s.
Proof.
  induction s as [|c r IH]; [reflexivity|].
  simpl. destruct (isWhite c) eqn:W; simpl; [exact IH|].
  destruct (startsWhite r || negb (nonEmpty r)); simpl.
  - rewrite IH. reflexivity.
  - rewrite <- IH. destruct (tokens r); reflexivity.
Qed.

Lemma tokens_nonempty (s : jsstring) :
  Forall (fun w => nonEmpty w = true) (tokens s).
Proof.
  induction s as [|c r IH]; [constructor|].
  simpl. destruct (isWhite c); [exact IH|].
  destruct (startsWhite r || negb (nonEmpty r)).
  - constructor; [reflexivity|exact IH].
  - destruct (tokens r) as [|t ts]; constructor; try reflexivity.
    + constructor.
    + inversion IH; assumption.
Qed.

(** ** Clamped inputs: count, rate and pause *)

Lemma num_ltb_not_leb (a : Z) (r : number) :
  num_ltb (num a) r = true -> num_leb r (num a) = false.
Proof.
  destruct r as [| | |[n d]]; try reflexivity; try discriminate.
  unfold num. cases_ltb; intros; (reflexivity || discriminate || lia).
Qed.

Lemma num_leb_mono (a b : Z) (r : number) :
  a <= b -> num_leb r (num a) = true -> num_leb r (num b) = true.
Proof.
  intros Hab.
  destruct r as [| | |[n d]]; try reflexivity; try discriminate.
  unfold num. cases_ltb; intros; (reflexivity || discriminate || nia).
Qed.

Lemma num_leb_false_mono (a b : Z) (r : number) :
  a <= b -> num_leb r (num b) = false -> num_leb r (num a) = false.
Proof.
  intros Hab Hb. destruct (num_leb r (num a)) eqn:E; [|reflexivity].
  rewrite (num_leb_mono a b r Hab E) in Hb. discriminate.
Qed.

Lemma js_or_truthy (v d : value) : ToBoolean v = true -> js_or v d = v.
Proof. unfold js_or. intros ->. reflexivity. Qed.

Lemma js_or_falsy (v d : value) : ToBoolean v = false -> js_or v d = d.
Proof. unfold js_or. intros ->. reflexivity. Qed.

(** A falsy value converts to a number: the conversion throws only on an
    object or an array, and these are truthy. *)
Lemma falsy_converts (v : value) :
  ToBoolean v = false -> exists n, ToNumber v = Some n.
Proof.
  destruct v as [| |[|]|n|s|xs|ps]; try discriminate; intros _; eexists;
    reflexivity.
Qed.

(** [Number(v || d)] throws exactly when [Number(v)] does. *)
Lemma to_number_or (v : value) (d : number) :
  ToNumber (js_or v (VNum d)) = None <-> ToNumber v = None.
Proof.
  destruct (ToBoolean v) eqn:T.
  - rewrite (js_or_truthy _ _ T). tauto.
  - rewrite (js_or_falsy _ _ T).
    destruct (falsy_converts v T) as [n ->]. simpl. split; discriminate.
Qed.

Lemma option_map_none {A B : Type} (f : A -> B) (o : option A) :
  option_map f o = None <-> o = None.
Proof. destruct o; simpl; split; (reflexivity || discriminate). Qed.

(** C2, amended. A count that is present and not empty is
    converted to a number and clamped to the interval from 1 to 20; a count
    that is missing or empty gives 3; a count that is not numeric converts to
    NaN and stays NaN, no default replaces it; in every other case the
    result lies between 1 and 20. The handler sends the result as the page
    size. (The two conversions of the handler stand before its [try]: did
    one throw, the handler would throw and send nothing.) *)
Theorem count_clamped (query : value) :
  (ToBoolean (get "count" query) = true ->
   count query
   = option_map (fun n => clamp n (num 1) (num 20))
       (ToNumber (get "count" query)))
  /\ (ToBoolean (get "count" query) = false -> count query = Some (num 3))
  /\ (ToBoolean (get "count" query) = true ->
      ToNumber (get "count" query) = Some NaN -> count query = Some NaN)
  /\ (forall n,
        ToNumber (js_or (get "count" query) (VNum (num 3))) = Some n ->
        is_nan n = false ->
        exists c,
          count query = Some c
          /\ num_leb (num 1) c = true /\ num_leb c (num 20) = true)
  /\ (count query = None <-> ToNumber (get "count" query) = None)
  /\ (forall from n q,
        count query = Some n ->
        ToString (js_or (get "q" query) (VStr (u "India"))) = Some q ->
        exists k,
          news_handler from query
          = CallNews
              {| np_q := q; np_from := from; np_sortBy := u "publishedAt";
                 np_language := u "en"; np_pageSize := n |} k)
  /\ (forall from,
        count query = None
        \/ ToString (js_or (get "q" query) (VStr (u "India"))) = None ->
        news_handler from query = Throws ConversionError).
Proof.
  unfold news_handler, count.
  split; [|split; [|split; [|split; [|split; [|split]]]]].
  - intros T. rewrite (js_or_truthy _ _ T).
    destruct (ToNumber _) as [n|]; [|reflexivity].
    simpl. rewrite max_min_clamp by lia. reflexivity.
  - intros T. rewrite (js_or_falsy _ _ T). reflexivity.
  - intros T N. rewrite (js_or_truthy _ _ T), N. reflexivity.
  - intros n E N. rewrite E. simpl. eexists. split; [reflexivity|].
    rewrite max_min_clamp by lia. apply clamp_bounds; [lia|exact N].
  - rewrite option_map_none. apply to_number_or.
  - intros from n q -> ->. eexists. reflexivity.
  - intros from [-> | E]; [reflexivity|].
    rewrite E. destruct (option_map _ _); reflexivity.
Qed.

(** C2 fails as stated: the count [abc] is not numeric, and the page size is
    NaN, not the default 3. *)
Lemma count_non_numeric_is_nan :
  ToNumber (get "count" query_count_abc) = Some NaN
  /\ count query_count_abc = Some NaN
  /\ count query_count_abc <> Some (num 3).
Proof.
  repeat split; try reflexivity. discriminate.
Qed.

Lemma tier_of_thresholds (r : number) :
  (num_leb r (num 80) = true -> tier_of r = u "x-slow")
  /\ (num_ltb (num 80) r = true -> num_leb r (num 95) = true ->
      tier_of r = u "slow")
  /\ (num_ltb (num 95) r = true -> num_leb r (num 110) = true ->
      tier_of r = u "medium")
  /\ (num_ltb (num 110) r = true -> num_leb r (num 125) = true ->
      tier_of r = u "fast")
  /\ (num_leb r (num 125) = false -> tier_of r = u "x-fast").
Proof.
  unfold tier_of. repeat split.
  - intros ->. reflexivity.
  - intros H1 ->. rewrite (num_ltb_not_leb _ _ H1). reflexivity.
  - intros H1 ->. apply num_ltb_not_leb in H1.
    rewrite H1, (num_leb_false_mono 80 95 r) by (lia || assumption).
    reflexivity.
  - intros H1 ->. apply num_ltb_not_leb in H1.
    rewrite H1, (num_leb_false_mono 95 110 r),
      (num_leb_false_mono 80 110 r) by (lia || assumption).
    reflexivity.
  - intros H1.
    rewrite H1, (num_leb_false_mono 110 125 r),
      (num_leb_false_mono 95 125 r), (num_leb_false_mono 80 125 r)
      by (lia || assumption).
    reflexivity.
Qed.

(** C3, amended. A truthy rate is converted to a number and
    clamped to the interval from 60 to 140; a falsy rate (0 among them) gives
    100; the effective rate lies between 60 and 140 unless the rate is not
    numeric. The tier follows the thresholds on that effective rate, and
    the listed rates give the listed tiers. A rate that cannot be converted
    to a number (an object with a [toString] entry of its own) has no
    effective rate and no tier: the function throws. *)
Theorem rate_clamped_and_tiered (rate : value) :
  (ToBoolean rate = true ->
   effective_rate rate
   = option_map (fun n => clamp n (num 60) (num 140)) (ToNumber rate))
  /\ (ToBoolean rate = false -> effective_rate rate = Some (num 100))
  /\ (forall n,
        ToNumber (js_or rate (VNum (num 100))) = Some n ->
        is_nan n = false ->
        exists r,
          effective_rate rate = Some r
          /\ num_leb (num 60) r = true /\ num_leb r (num 140) = true)
  /\ (effective_rate rate = None <-> ToNumber rate = None)
  /\ (ratePercentToSsmlRate rate = None <-> ToNumber rate = None)
  /\ (forall r,
        effective_rate rate = Some r ->
        (num_leb r (num 80) = true ->
         ratePercentToSsmlRate rate = Some (u "x-slow"))
        /\ (num_ltb (num 80) r = true -> num_leb r (num 95) = true ->
            ratePercentToSsmlRate rate = Some (u "slow"))
        /\ (num_ltb (num 95) r = true -> num_leb r (num 110) = true ->
            ratePercentToSsmlRate rate = Some (u "medium"))
        /\ (num_ltb (num 110) r = true -> num_leb r (num 125) = true ->
            ratePercentToSsmlRate rate = Some (u "fast"))
        /\ (num_leb r (num 125) = false ->
            ratePercentToSsmlRate rate = Some (u "x-fast")))
  /\ map (fun z => ratePercentToSsmlRate (VNum (num z)))
         [100; 80; 81; 95; 96; 110; 111; 125; 126]
     = map Some
         [u "medium"; u "x-slow"; u "slow"; u "slow"; u "medium"; u "medium";
          u "fast"; u "fast"; u "x-fast"]
  /\ ToNumber (VObj [(u "toString", VNum (num 1))]) = None
  /\ ratePercentToSsmlRate (VObj [(u "toString", VNum (num 1))]) = None.
Proof.
  split; [|split; [|split; [|split; [|split; [|split; [|split; [|split]]]]]]].
  - intros T. unfold effective_rate. rewrite (js_or_truthy _ _ T).
    destruct (ToNumber rate) as [n|]; [|reflexivity].
    simpl. rewrite max_min_clamp by lia. reflexivity.
  - intros T. unfold effective_rate. rewrite (js_or_falsy _ _ T). reflexivity.
  - intros n E N. unfold effective_rate. rewrite E. simpl.
    eexists. split; [reflexivity|].
    rewrite max_min_clamp by lia. apply clamp_bounds; [lia|exact N].
  - unfold effective_rate. rewrite option_map_none. apply to_number_or.
  - unfold ratePercentToSsmlRate, effective_rate.
    rewrite !option_map_none. apply to_number_or.
  - intros r E. unfold ratePercentToSsmlRate. rewrite E. simpl.
    destruct (tier_of_thresholds r) as [H1 [H2 [H3 [H4 H5]]]].
    repeat split; intros; f_equal; auto.
  - vm_compute. reflexivity.
  - reflexivity.
  - reflexivity.
Qed.

(** C3 fails as stated: the rate 0 is not clamped to 60 but replaced by 100,
    and its tier is "medium" where the tier of 60 is "x-slow". *)
Lemma rate_zero_not_clamped :
  effective_rate (VNum (num 0)) = Some (num 100)
  /\ option_map (fun n => clamp n (num 60) (num 140)) (ToNumber (VNum (num 0)))
     = Some (num 60)
  /\ effective_rate (VNum (num 0))
     <> option_map (fun n => clamp n (num 60) (num 140))
          (ToNumber (VNum (num 0)))
  /\ ratePercentToSsmlRate (VNum (num 0)) = Some (u "medium")
  /\ ratePercentToSsmlRate (VNum (num 60)) = Some (u "x-slow").
Proof.
  repeat split; try reflexivity. discriminate.
Qed.

Lemma replaceAll_removes (c : Z) (rep s : jsstring) :
  ~ In c rep -> ~ In c (replaceAll c rep s).
Proof.
  intros Hr. unfold replaceAll. rewrite in_flat_map.
  intros [x [_ Hx]]. cbv beta in Hx.
  destruct (Z.eqb_spec x c) as [E|Hn].
  - exact (Hr Hx).
  - destruct Hx as [E|[]]. exact (Hn E).
Qed.

Lemma replaceAll_keeps_out (c d : Z) (rep s : jsstring) :
  ~ In d s -> ~ In d rep -> ~ In d (replaceAll c rep s).
Proof.
  intros Hs Hr. unfold replaceAll. rewrite in_flat_map.
  intros [x [Hin Hx]]. cbv beta in Hx.
  destruct (x =? c).
  - exact (Hr Hx).
  - destruct Hx as [E|[]]. subst x. exact (Hs Hin).
Qed.

(** An escaped word holds none of [<], [>], the double quote and the
    apostrophe. *)
Lemma escapeXml_safe (w : jsstring) (c : Z) :
  In c (escapeXml w) -> c <> 60 /\ c <> 62 /\ c <> 34 /\ c <> 39.
Proof.
  intros Hin.
  assert (N : forall d rep, (d = 60 \/ d = 62 \/ d = 34 \/ d = 39) ->
                In rep [u "&amp;"; u "&lt;"; u "&gt;"; u "&quot;"; u "&apos;"] ->
                ~ In d rep).
  { intros d rep Hd Hrep. simpl in Hrep.
    destruct Hrep as [<-|[<-|[<-|[<-|[<-|[]]]]]];
      destruct Hd as [-> | [-> | [-> | ->]]]; simpl; intuition discriminate. }
  unfold escapeXml in Hin.
  repeat split; intros ->; revert Hin.
  - do 3 (apply replaceAll_keeps_out; [|apply N; simpl; tauto]).
    apply replaceAll_removes. apply N; simpl; tauto.
  - do 2 (apply replaceAll_keeps_out; [|apply N; simpl; tauto]).
    apply replaceAll_removes. apply N; simpl; tauto.
  - apply replaceAll_keeps_out; [|apply N; simpl; tauto].
    apply replaceAll_removes. apply N; simpl; tauto.
  - apply replaceAll_removes. apply N; simpl; tauto.
Qed.

(** With a truthy text, the handler of the speech builds the markup before
    its [try]: it throws when that throws, and sends the markup
    otherwise. *)
Lemma speak_handler_call (body : value) :
  ToBoolean (get "text" (js_or body (VObj []))) = true ->
  match
    buildHindiSsml (get "text" (js_or body (VObj [])))
      (default (get "rate" (js_or body (VObj []))) (VNum (num 100)))
      (default (get "pauseMs" (js_or body (VObj []))) (VNum (num 0)))
  with
  | Some ssml =>
    exists k,
      speak_handler body = CallSpeech ssml k
      /\ (forall audioData,
            k (SynthesizingAudioCompleted audioData)
            = Audio (u "audio/mpeg") (Z.of_nat (List.length audioData))
                audioData)
      /\ (forall s,
            (forall audioData, s <> SynthesizingAudioCompleted audioData) ->
            status_of (k s) = 500)
  | None => speak_handler body = Throws ConversionError
  end.
Proof.
  intros T. unfold speak_handler. cbv zeta. rewrite T. simpl negb. cbv iota.
  destruct (buildHindiSsml _ _ _) as [ssml|]; [|reflexivity].
  eexists. split; [reflexivity|]. split; [reflexivity|].
  intros [e|a|r|e|e] H; try reflexivity. destruct (H a eq_refl).
Qed.

(** The markup cannot be built exactly when one of its three conversions
    throws. *)
Lemma buildHindiSsml_throws (text ratePercent pauseMs : value) :
  buildHindiSsml text ratePercent pauseMs = None
  <-> ToString text = None \/ ToNumber ratePercent = None
      \/ ToNumber pauseMs = None.
Proof.
  unfold buildHindiSsml, ssml_body, ratePercentToSsmlRate, effective_rate,
    safePause, words_of.
  rewrite <- (to_number_or ratePercent (num 100)),
    <- (to_number_or pauseMs (num 0)).
  destruct (ToNumber (js_or ratePercent _)), (ToNumber (js_or pauseMs _)),
    (ToString text); simpl; intuition discriminate.
Qed.




Lemma ssml_body_joined (text pauseMs : value) (p : number) :
  safePause pauseMs = Some p ->
  ssml_body text pauseMs
  = option_map (fun ws => join (joiner_of p) (map escapeXml ws))
      (words_of text).
Proof.
  intros E. unfold ssml_body. rewrite E.
  destruct (words_of text); reflexivity.
Qed.



(** C9. A falsy rate is replaced by 100 before it is clamped, so its tier is
    "medium"; a falsy pause becomes 0 and the words are joined by one space.
    The same holds in the handler, where an absent field has taken its
    default before. 0, [null], [undefined], the empty string and NaN are
    falsy, and the tier of the rate 0 is not the tier "x-slow" of the lower
    bound 60. *)
Theorem falsy_rate_and_pause_defaults (v : value) :
  ToBoolean v = false ->
  effective_rate v = Some (num 100)
  /\ ratePercentToSsmlRate v = Some (u "medium")
  /\ safePause v = Some (num 0)
  /\ (forall text,
        ssml_body text v
        = option_map (fun ws => join [32] (map escapeXml ws)) (words_of text))
  /\ ratePercentToSsmlRate (default v (VNum (num 100))) = Some (u "medium")
  /\ (forall text,
        ssml_body text (default v (VNum (num 0)))
        = option_map (fun ws => join [32] (map escapeXml ws)) (words_of text))
  /\ Forall (fun x => ToBoolean x = false)
       [VNum (num 0); VNull; VUndefined; VStr []; VNum NaN]
  /\ ratePercentToSsmlRate (VNum (num 0)) = Some (u "medium")
  /\ ratePercentToSsmlRate (VNum (clamp (num 0) (num 60) (num 140)))
     = Some (u "x-slow").
Proof.
  intros T.
  assert (R : effective_rate v = Some (num 100)).
  { unfold effective_rate. rewrite (js_or_falsy _ _ T). reflexivity. }
  assert (P : safePause v = Some (num 0)).
  { unfold safePause. rewrite (js_or_falsy _ _ T). reflexivity. }
  assert (M : ratePercentToSsmlRate v = Some (u "medium")).
  { unfold ratePercentToSsmlRate. rewrite R. reflexivity. }
  assert (J : forall text,
             ssml_body text v
             = option_map (fun ws => join [32] (map escapeXml ws))
                 (words_of text)).
  { intros text. rewrite (ssml_body_joined _ _ _ P). reflexivity. }
  repeat split; try assumption.
  - destruct v; exact M.
  - intros text. destruct v; exact (J text).
  - repeat constructor.
Qed.

(** ** The line filter of the summary *)

Lemma in_script_not_white (c : Z) : in_script c -> isWhite c = false.
Proof.
  intros H. unfold isWhite.
  repeat (apply orb_false_intro);
    try (apply Z.eqb_neq; destruct H; lia);
    apply andb_false_iff;
    destruct H;
    ((left; apply Z.leb_gt; lia) || (right; apply Z.leb_gt; lia)).
Qed.

Lemma trimStart_In (c : Z) (s : jsstring) :
  In c s -> isWhite c = false -> In c (trimStart s).
Proof.
  intros Hin Hc. induction s as [|x r IH]; [contradiction|].
  simpl. destruct (isWhite x) eqn:E; [|exact Hin].
  destruct Hin as [->|Hin]; [congruence|auto].
Qed.

Lemma trim_In (c : Z) (s : jsstring) :
  In c s -> isWhite c = false -> In c (trim s).
Proof.
  intros Hin Hc. unfold trim, trimEnd.
  apply in_rev. rewrite rev_involutive.
  apply trimStart_In; [|exact Hc].
  apply -> in_rev. apply trimStart_In; assumption.
Qed.

Lemma has_script_spec (line : jsstring) :
  hasHebrew line || hasDeva line = true
  <-> exists c, In c line /\ in_script c.
Proof.
  unfold hasHebrew, hasDeva, has_in_range, in_script.
  rewrite orb_true_iff, !existsb_exists. split.
  - intros [[c [Hin H]]|[c [Hin H]]]; exists c; (split; [exact Hin|]);
      apply andb_true_iff in H; destruct H as [H1 H2];
      apply Z.leb_le in H1, H2; lia.
  - intros [c [Hin [H|H]]]; [left|right]; exists c; (split; [exact Hin|]);
      apply andb_true_iff; split; apply Z.leb_le; lia.
Qed.

Lemma keep_line_spec (line : jsstring) :
  (hasHebrew line || hasDeva line = true ->
   keep_line line = trim line /\ nonEmpty (keep_line line) = true)
  /\ (hasHebrew line || hasDeva line = false -> keep_line line = []).
Proof.
  unfold keep_line. split; intros H.
  - assert (E : negb (hasHebrew line) && negb (hasDeva line) = false).
    { rewrite <- negb_orb, H. reflexivity. }
    rewrite E. split; [reflexivity|].
    apply has_script_spec in H. destruct H as [c [Hin Hs]].
    pose proof (trim_In c line Hin (in_script_not_white c Hs)) as Ht.
    destruct (trim line); [contradiction|reflexivity].
  - rewrite <- negb_orb, H. reflexivity.
Qed.

Lemma kept_lines_filter (lines : list jsstring) :
  filter nonEmpty (map keep_line lines)
  = map trim (filter (fun l => hasHebrew l || hasDeva l) lines).
Proof.
  induction lines as [|l rest IH]; [reflexivity|].
  simpl. destruct (hasHebrew l || hasDeva l) eqn:E.
  - destruct (proj1 (keep_line_spec l) E) as [K N].
    rewrite N, K. simpl. rewrite IH. reflexivity.
  - rewrite (proj2 (keep_line_spec l) E). simpl. exact IH.
Qed.

(** With a truthy text, the handler of the summary builds its prompt before
    its [try]: it throws when the text cannot be converted, and calls the
    provider with the prompt otherwise. *)
Lemma summarize_handler_call (body : value) :
  ToBoolean (get "text" (js_or body (VObj []))) = true ->
  match ToString (get "text" (js_or body (VObj []))) with
  | Some t =>
    exists k,
      summarize_handler body
      = CallCompletion model
          (summarize_prompt
             (levelGuide
                (default (get "level" (js_or body (VObj [])))
                   (VStr (u "beginner")))) t) k
      /\ (forall content,
            k (Completed content)
            = Json 200
                (obj1 "result"
                   (VStr (filter_result (content_or_empty content)))))
      /\ (forall e,
            k (Rejected e) = JsonError 500 (u "OpenAI error") (ClientError e))
  | None => summarize_handler body = Throws ConversionError
  end.
Proof.
  intros T. unfold summarize_handler. cbv zeta. rewrite T. simpl negb. cbv iota.
  destruct (ToString _) as [t|]; [|reflexivity].
  eexists. split; [reflexivity|]. split; reflexivity.
Qed.

(** C5. The lines of the filtered summary are, in order and trimmed, the
    lines of the completion that hold a Hebrew or a Devanagari character; a
    line with no such character, pure Latin text among them, is dropped. The
    result is a 200 response whatever was kept, also when nothing was. (A
    completion is returned to the handler only after its call: a truthy
    text that cannot be converted makes the handler throw before.) *)
Theorem summarize_line_filter (content : jsstring) :
  kept_lines content
  = map trim
      (filter (fun l => hasHebrew l || hasDeva l) (split_char 10 content))
  /\ (forall line,
        hasHebrew line || hasDeva line = true
        <-> exists c, In c line /\ in_script c)
  /\ (forall line,
        (forall c, In c line -> ~ in_script c) -> keep_line line = [])
  /\ (forall body t,
        ToBoolean (input_of Summarize body) = true ->
        ToString (input_of Summarize body) = Some t ->
        exists prompt k,
          summarize_handler body = CallCompletion model prompt k
          /\ (forall c,
                content_or_empty c = content ->
                k (Completed c)
                = Json 200
                    (obj1 "result" (VStr (join [10] (kept_lines content))))
                /\ (kept_lines content = [] ->
                    k (Completed c) = Json 200 (obj1 "result" (VStr [])))))
  /\ (forall body,
        ToBoolean (input_of Summarize body) = true ->
        ToString (input_of Summarize body) = None ->
        summarize_handler body = Throws ConversionError
        /\ calls (summarize_handler body) = 0%nat).
Proof.
  split; [apply kept_lines_filter|].
  split; [exact has_script_spec|]. split; [|split].
  - intros line Hl. apply keep_line_spec.
    destruct (hasHebrew line || hasDeva line) eqn:E; [|reflexivity].
    apply has_script_spec in E. destruct E as [c [Hin Hs]].
    exfalso. exact (Hl c Hin Hs).
  - unfold input_of, required_field. intros body t T S.
    pose proof (summarize_handler_call body T) as H. rewrite S in H.
    destruct H as [k [E [Hk _]]].
    eexists. exists k. split; [exact E|].
    intros c <-. rewrite Hk. unfold filter_result. split; [reflexivity|].
    intros K. rewrite K. reflexivity.
  - unfold input_of, required_field. intros body T S.
    pose proof (summarize_handler_call body T) as H. rewrite S in H.
    rewrite H. split; reflexivity.
Qed.

(** ** Reading the completion of the word map *)

Lemma indexOf_app (c : Z) (pre rest : jsstring) :
  ~ In c pre -> indexOf c (pre ++ c :: rest) = Z.of_nat (List.length pre).
Proof.
  induction pre as [|x r IH]; intros Hn.
  - simpl. rewrite Z.eqb_refl. reflexivity.
  - simpl in *. destruct (Z.eqb_spec x c) as [->|Hx]; [tauto|].
    rewrite IH by tauto.
    destruct (Z.ltb_spec (Z.of_nat (List.length r)) 0); lia.
Qed.

Lemma indexOf_split (c : Z) (s : jsstring) :
  0 <= indexOf c s ->
  exists pre rest,
    s = pre ++ c :: rest /\ ~ In c pre
    /\ indexOf c s = Z.of_nat (List.length pre).
Proof.
  induction s as [|x r IH]; simpl; [lia|].
  destruct (Z.eqb_spec x c) as [->|Hx].
  - intros _. exists [], r. repeat split. intros [].
  - destruct (Z.ltb_spec (indexOf c r) 0) as [H|H]; [lia|].
    intros _. destruct (IH H) as [pre [rest [E [Hn L]]]].
    exists (x :: pre), rest. repeat split.
    + simpl. rewrite <- E. reflexivity.
    + simpl. intros [A|A]; [exact (Hx A)|exact (Hn A)].
    + simpl List.length. lia.
Qed.

Lemma lastIndexOf_none (c : Z) (s : jsstring) :
  ~ In c s -> lastIndexOf c s = -1.
Proof.
  induction s as [|x r IH]; intros Hn; [reflexivity|].
  simpl in *. rewrite IH by tauto. simpl.
  destruct (Z.eqb_spec x c); [tauto|reflexivity].
Qed.

Lemma lastIndexOf_app (c : Z) (front post : jsstring) :
  ~ In c post -> lastIndexOf c (front ++ c :: post) = Z.of_nat (List.length front).
Proof.
  intros Hn. induction front as [|x r IH].
  - simpl. rewrite (lastIndexOf_none c post Hn). simpl.
    rewrite Z.eqb_refl. reflexivity.
  - simpl. rewrite IH.
    destruct (Z.leb_spec 0 (Z.of_nat (List.length r))); lia.
Qed.

Lemma lastIndexOf_In (c : Z) (s : jsstring) :
  In c s -> 0 <= lastIndexOf c s.
Proof.
  induction s as [|x r IH]; [contradiction|].
  intros Hin. simpl.
  destruct (Z.leb_spec 0 (lastIndexOf c r)) as [H|H]; [lia|].
  destruct Hin as [->|Hin]; [rewrite Z.eqb_refl; lia|].
  specialize (IH Hin). lia.
Qed.

Lemma lastIndexOf_split (c : Z) (s : jsstring) :
  0 <= lastIndexOf c s ->
  exists front post,
    s = front ++ c :: post /\ ~ In c post
    /\ lastIndexOf c s = Z.of_nat (List.length front).
Proof.
  induction s as [|x r IH]; simpl; [lia|].
  destruct (Z.leb_spec 0 (lastIndexOf c r)) as [H|H].
  - intros _. destruct (IH H) as [front [post [E [Hn L]]]].
    exists (x :: front), post. repeat split.
    + simpl. rewrite <- E. reflexivity.
    + exact Hn.
    + simpl List.length. lia.
  - destruct (Z.eqb_spec x c) as [->|Hx]; [|lia].
    intros _. exists [], r. repeat split.
    intros Hin. pose proof (lastIndexOf_In c r Hin). lia.
Qed.

Lemma slice_middle (pre sub post : jsstring) :
  slice (pre ++ sub ++ post) (Z.of_nat (List.length pre))
    (Z.of_nat (List.length pre) + Z.of_nat (List.length sub))
  = sub.
Proof.
  unfold slice.
  replace (Z.to_nat (Z.of_nat (List.length pre) + Z.of_nat (List.length sub)
                     - Z.of_nat (List.length pre)))
    with (List.length sub) by lia.
  rewrite Nat2Z.id, skipn_app, skipn_all, Nat.sub_diag. simpl.
  rewrite firstn_app, firstn_all, Nat.sub_diag. simpl.
  apply app_nil_r.
Qed.

(** The code's test and slice find the part between the braces. *)
Lemma braced_extract (raw sub : jsstring) :
  braced raw sub ->
  (0 <=? indexOf 123 raw) && (indexOf 123 raw <? lastIndexOf 125 raw) = true
  /\ slice raw (indexOf 123 raw) (lastIndexOf 125 raw + 1) = sub.
Proof.
  intros [pre [mid [post [E [Hpre [Hpost S]]]]]].
  assert (I : indexOf 123 raw = Z.of_nat (List.length pre)).
  { rewrite E. apply indexOf_app. exact Hpre. }
  assert (L : lastIndexOf 125 raw
              = Z.of_nat (List.length pre) + 1 + Z.of_nat (List.length mid)).
  { rewrite E.
    change (pre ++ 123 :: mid ++ 125 :: post)
      with (pre ++ (123 :: mid) ++ 125 :: post).
    rewrite app_assoc, lastIndexOf_app by exact Hpost.
    rewrite length_app. simpl List.length. lia. }
  rewrite I, L. split.
  - apply andb_true_iff. split; [apply Z.leb_le|apply Z.ltb_lt]; lia.
  - subst sub.
    replace (Z.of_nat (List.length pre) + 1 + Z.of_nat (List.length mid) + 1)
      with (Z.of_nat (List.length pre)
            + Z.of_nat (List.length (123 :: mid ++ [125])))
      by (simpl List.length; rewrite length_app; simpl List.length; lia).
    rewrite E.
    replace (pre ++ 123 :: mid ++ 125 :: post)
      with (pre ++ (123 :: mid ++ [125]) ++ post)
      by (simpl; rewrite <- app_assoc; reflexivity).
    apply slice_middle.
Qed.

(** When the code's test holds, the braces are there. *)
Lemma extract_braced (raw : jsstring) :
  (0 <=? indexOf 123 raw) && (indexOf 123 raw <? lastIndexOf 125 raw) = true ->
  braced raw (slice raw (indexOf 123 raw) (lastIndexOf 125 raw + 1)).
Proof.
  intros H. apply andb_true_iff in H. destruct H as [H1 H2].
  apply Z.leb_le in H1. apply Z.ltb_lt in H2.
  destruct (indexOf_split 123 raw H1) as [pre [rest [E1 [Hpre L1]]]].
  destruct (lastIndexOf_split 125 raw ltac:(lia)) as [front [post [E2 [Hpost L2]]]].
  assert (E : pre ++ 123 :: rest = front ++ 125 :: post) by congruence.
  apply app_eq_app in E. destruct E as [l [[A B]|[A B]]].
  - exfalso. rewrite L1, L2, A, length_app in H2. lia.
  - destruct l as [|x mid].
    + exfalso. rewrite app_nil_r in A. subst front. lia.
    + simpl in B. injection B as Bx Br. subst x rest.
      assert (Hb : braced raw (123 :: mid ++ [125])).
      { exists pre, mid, post. repeat split; assumption. }
      rewrite (proj2 (braced_extract raw _ Hb)). exact Hb.
Qed.

Lemma parse_raw_direct (raw : jsstring) (v : value) :
  JSON_parse raw = Some v -> parse_raw raw = inr v.
Proof. unfold parse_raw. intros ->. reflexivity. Qed.

Lemma parse_raw_fallback (raw sub : jsstring) :
  JSON_parse raw = None -> braced raw sub ->
  parse_raw raw
  = match JSON_parse sub with
    | Some v => inr v
    | None => inl (JsonSyntaxError sub)
    end.
Proof.
  intros N B. unfold parse_raw. rewrite N.
  destruct (braced_extract raw sub B) as [T S].
  cbv zeta. rewrite T, S. reflexivity.
Qed.

Lemma parse_raw_no_braces (raw : jsstring) :
  JSON_parse raw = None -> (forall sub, ~ braced raw sub) ->
  parse_raw raw = inl NoJsonError.
Proof.
  intros N B. unfold parse_raw. rewrite N. cbv zeta.
  destruct ((0 <=? indexOf 123 raw) && (indexOf 123 raw <? lastIndexOf 125 raw))
    eqn:T; [|reflexivity].
  exfalso. exact (B _ (extract_braced raw T)).
Qed.

Lemma parse_raw_fails_iff (raw : jsstring) :
  (exists e, parse_raw raw = inl e)
  <-> JSON_parse raw = None
      /\ (forall sub, braced raw sub -> JSON_parse sub = None).
Proof.
  split.
  - intros [e He].
    destruct (JSON_parse raw) as [v|] eqn:N.
    + rewrite (parse_raw_direct raw v N) in He. discriminate.
    + split; [reflexivity|]. intros sub B.
      rewrite (parse_raw_fallback raw sub N B) in He.
      destruct (JSON_parse sub); [discriminate|reflexivity].
  - intros [N B]. unfold parse_raw. rewrite N. cbv zeta.
    destruct ((0 <=? indexOf 123 raw)
              && (indexOf 123 raw <? lastIndexOf 125 raw)) eqn:T.
    + rewrite (B _ (extract_braced raw T)). eexists. reflexivity.
    + eexists. reflexivity.
Qed.

(** With a sentence that is truthy, can be converted and has a word, the
    handler of the word map calls the provider, and answers from the
    completion. *)
Lemma wordmap_handler_call (body : value) (ws : list jsstring) :
  ToBoolean (get "sentence" (js_or body (VObj []))) = true ->
  words_of (get "sentence" (js_or body (VObj []))) = Some ws ->
  ws <> [] ->
  exists k,
    wordmap_handler body = CallCompletion model (wordmap_prompt ws) k
    /\ (forall content,
          k (Completed content)
          = match parse_raw (trim (content_or_empty content)) with
            | inr parsed =>
              match normalized ws parsed with
              | Some entries => Json 200 (obj1 "words" (VArr entries))
              | None => JsonError 500 (u "Wordmap error") ConversionError
              end
            | inl e => JsonError 500 (u "Wordmap error") e
            end)
    /\ (forall e,
          k (Rejected e) = JsonError 500 (u "Wordmap error") (ClientError e)).
Proof.
  intros T E W. unfold wordmap_handler. cbv zeta.
  rewrite T. simpl negb. cbv iota. rewrite E.
  destruct ws as [|w ws]; [contradiction|].
  simpl (Z.of_nat _ =? 0). cbv iota.
  eexists. split; [reflexivity|]. split; reflexivity.
Qed.

(** ** The normalized word map *)

Lemma mapi_length {A B : Type} (f : A -> nat -> B) (i : nat) (xs : list A) :
  List.length (mapi f i xs) = List.length xs.
Proof.
  revert i. induction xs as [|x r IH]; intros i; simpl; [reflexivity|].
  rewrite IH. reflexivity.
Qed.

Lemma mapi_nth_error {A B : Type} (f : A -> nat -> B) (xs : list A) :
  forall i n,
    nth_error (mapi f i xs) n
    = option_map (fun x => f x (i + n)%nat) (nth_error xs n).
Proof.
  induction xs as [|x r IH]; intros i n.
  - destruct n; reflexivity.
  - destruct n as [|n]; simpl.
    + rewrite Nat.add_0_r. reflexivity.
    + rewrite IH. rewrite Nat.add_succ_r. reflexivity.
Qed.

(** The gloss of an entry cannot be read exactly when the entry and its
    [he] are truthy and the [he] cannot be converted to text. *)
Lemma he_of_throws (item : value) :
  he_of item = None
  <-> ToBoolean item = true /\ ToBoolean (get "he" item) = true
      /\ ToString (get "he" item) = None.
Proof.
  unfold he_of.
  destruct (ToBoolean item), (ToBoolean (get "he" item)); simpl;
    intuition discriminate.
Qed.

Lemma normalize_word_throws (out : value) (w : jsstring) (idx : nat) :
  normalize_word out w idx = None <-> he_of (index out idx) = None.
Proof.
  unfold normalize_word. cbv zeta.
  destruct (he_of (index out idx)); split; (reflexivity || discriminate).
Qed.

Lemma normalize_word_shape (out : value) (w : jsstring) (idx : nat)
      (e : value) :
  normalize_word out w idx = Some e ->
  exists he,
    e = VObj [(u "hi", VStr w); (u "he", VStr he)]
    /\ (he = [] \/ hasHebrew he = true).
Proof.
  unfold normalize_word. cbv zeta.
  destruct (he_of (index out idx)) as [he0|]; [|discriminate].
  intros H. injection H as <-.
  destruct (hasHebrew he0) eqn:H; simpl.
  - exists he0. split; [reflexivity|right; exact H].
  - exists []. split; [reflexivity|left; reflexivity].
Qed.

(** The map over the words throws exactly when the gloss at the position of
    a word cannot be read. *)
Lemma normalized_throws (words : list jsstring) (parsed : value) :
  normalized words parsed = None
  <-> exists i,
        (i < List.length words)%nat
        /\ he_of (index (out_of parsed) i) = None.
Proof.
  unfold normalized. rewrite sequence_none, mapi_length.
  split; intros [i [L H]]; exists i; (split; [exact L|]).
  - rewrite mapi_nth_error in H. simpl in H.
    destruct (nth_error words i) as [w|]; [|discriminate].
    simpl in H. injection H as H. apply normalize_word_throws in H. exact H.
  - rewrite mapi_nth_error. simpl.
    destruct (nth_error words i) as [w|] eqn:E.
    + simpl. f_equal. apply normalize_word_throws. exact H.
    + apply nth_error_None in E. lia.
Qed.

(** When it does not throw, the map gives one entry per word, with the word
    of its position. *)
Lemma normalized_entries (words : list jsstring) (parsed : value)
      (entries : list value) :
  normalized words parsed = Some entries ->
  List.length entries = List.length words
  /\ (forall i w,
        nth_error words i = Some w ->
        exists he,
          nth_error entries i
          = Some (VObj [(u "hi", VStr w); (u "he", VStr he)])
          /\ (he = [] \/ hasHebrew he = true)).
Proof.
  unfold normalized. intros H. split.
  - rewrite (sequence_length _ _ H). apply mapi_length.
  - intros i w Hi.
    pose proof (sequence_nth_error _ _ H i) as N.
    rewrite mapi_nth_error, Hi in N. simpl in N.
    destruct (nth_error entries i) as [e|]; [|discriminate].
    simpl in N. injection N as N.
    destruct (normalize_word_shape _ _ _ _ N) as [he [-> Hh]].
    exists he. split; [reflexivity|exact Hh].
Qed.

(** C7, amended. The completion is parsed as JSON as it is; when that fails
    and the text has an opening brace with a closing brace after it, the
    part from the first opening brace through the last closing brace is
    parsed; when the first parse fails and the second fails or has no such
    part to parse, the request fails with status 500. It fails with status
    500 as well when the completion is parsed and the gloss at the position
    of a word cannot be converted to text; in every other case the answer
    has status 200. *)
Theorem completion_parsed_twice (raw : jsstring) :
  (forall v, JSON_parse raw = Some v -> parse_raw raw = inr v)
  /\ (forall sub,
        JSON_parse raw = None -> braced raw sub ->
        parse_raw raw
        = match JSON_parse sub with
          | Some v => inr v
          | None => inl (JsonSyntaxError sub)
          end)
  /\ (JSON_parse raw = None -> (forall sub, ~ braced raw sub) ->
      parse_raw raw = inl NoJsonError)
  /\ ((exists e, parse_raw raw = inl e)
      <-> JSON_parse raw = None
          /\ (forall sub, braced raw sub -> JSON_parse sub = None))
  /\ (forall body content ws,
        ToBoolean (input_of Wordmap body) = true ->
        words_of (input_of Wordmap body) = Some ws ->
        ws <> [] ->
        trim (content_or_empty content) = raw ->
        exists prompt k,
          wordmap_handler body = CallCompletion model prompt k
          /\ ((exists e,
                 k (Completed content) = JsonError 500 (u "Wordmap error") e)
              <-> (exists e, parse_raw raw = inl e)
                  \/ (exists parsed,
                        parse_raw raw = inr parsed
                        /\ normalized ws parsed = None))
          /\ (forall parsed,
                parse_raw raw = inr parsed ->
                (forall entries,
                   normalized ws parsed = Some entries ->
                   k (Completed content)
                   = Json 200 (obj1 "words" (VArr entries)))
                /\ (normalized ws parsed = None ->
                    k (Completed content)
                    = JsonError 500 (u "Wordmap error") ConversionError)
                /\ (normalized ws parsed = None
                    <-> exists i,
                          (i < List.length ws)%nat
                          /\ ToBoolean (index (out_of parsed) i) = true
                          /\ ToBoolean (get "he" (index (out_of parsed) i))
                             = true
                          /\ ToString (get "he" (index (out_of parsed) i))
                             = None))).
Proof.
  split; [exact (parse_raw_direct raw)|].
  split; [exact (parse_raw_fallback raw)|].
  split; [exact (parse_raw_no_braces raw)|].
  split; [exact (parse_raw_fails_iff raw)|].
  unfold input_of, required_field. intros body content ws T W N R.
  destruct (wordmap_handler_call body ws T W N) as [k [E [Hk _]]].
  eexists. exists k. split; [exact E|].
  rewrite Hk, R. split.
  - destruct (parse_raw raw) as [e|parsed]; split.
    + intros _. left. exists e. reflexivity.
    + intros _. exists e. reflexivity.
    + destruct (normalized ws parsed) as [entries|] eqn:Q.
      * intros [e He]. discriminate.
      * intros _. right. exists parsed. split; [reflexivity|exact Q].
    + intros [[e He]|[p [Hp Hn]]]; [discriminate|].
      injection Hp as <-. rewrite Hn. eexists. reflexivity.
  - intros parsed ->. split; [|split].
    + intros entries ->. reflexivity.
    + intros ->. reflexivity.
    + rewrite normalized_throws.
      split; intros [i [L H]]; exists i; (split; [exact L|]);
        apply he_of_throws; exact H.
Qed.

(** C7 fails as stated: a completion that is JSON as it stands is parsed at
    the first attempt, and the request is answered with status 500, for a
    gloss that cannot be converted to text. *)
Lemma completion_parsed_but_500 :
  JSON_parse (trim completion_he_object) = Some parsed_he_object
  /\ match wordmap_handler body_ek_din with
     | CallCompletion _ _ k =>
       k (Completed (Some completion_he_object))
       = JsonError 500 (u "Wordmap error") ConversionError
     | _ => False
     end.
Proof. split; vm_compute; reflexivity. Qed.

Lemma words_of_text_truthy (s : jsstring) (ws : list jsstring) :
  words_of (VStr s) = Some ws -> ws <> [] -> ToBoolean (VStr s) = true.
Proof.
  destruct s; [|reflexivity].
  intros H W. injection H as <-. exfalso. apply W. reflexivity.
Qed.

(** C1, amended. When the sentence of a request passes the check of the
    required input, is converted to text and splits into at least one word,
    and the completion can be parsed, directly or between its braces: if the
    gloss at the position of every word can be converted to text, the
    response holds one entry per word: as many entries as words, the entry
    at each position with the word of that position, unchanged, as [hi] and
    with a gloss that is empty or holds a Hebrew character as [he], however
    many entries the parsed completion holds; if the gloss at the position
    of a word cannot be converted, the response is an error with status
    500. A sentence that is a text with a word passes the check of the
    required input. *)
Theorem wordmap_positional (body : value) (content : option jsstring)
        (parsed : value) (ws : list jsstring) :
  words_of (input_of Wordmap body) = Some ws ->
  ws <> [] ->
  parse_raw (trim (content_or_empty content)) = inr parsed ->
  (forall s,
     input_of Wordmap body = VStr s ->
     ToBoolean (input_of Wordmap body) = true)
  /\ (ToBoolean (input_of Wordmap body) = true ->
      exists prompt k,
        wordmap_handler body = CallCompletion model prompt k
        /\ ((forall i,
               (i < List.length ws)%nat ->
               exists he, he_of (index (out_of parsed) i) = Some he) ->
            exists entries,
              k (Completed content) = Json 200 (obj1 "words" (VArr entries))
              /\ List.length entries = List.length ws
              /\ (forall i w,
                    nth_error ws i = Some w ->
                    exists he,
                      nth_error entries i
                      = Some (VObj [(u "hi", VStr w); (u "he", VStr he)])
                      /\ (he = [] \/ hasHebrew he = true)))
        /\ ((exists i,
               (i < List.length ws)%nat
               /\ he_of (index (out_of parsed) i) = None) ->
            k (Completed content)
            = JsonError 500 (u "Wordmap error") ConversionError))
  /\ (forall item,
        he_of item = None
        <-> ToBoolean item = true /\ ToBoolean (get "he" item) = true
            /\ ToString (get "he" item) = None)
  /\ (forall props,
        ToString (VObj props) = None
        <-> has_own (u "toString") props = true).
Proof.
  unfold input_of, required_field. intros W N P.
  split; [|split; [|split; [exact he_of_throws|exact has_own_throws]]].
  - intros s E. rewrite E in *. exact (words_of_text_truthy s ws W N).
  - intros T.
    destruct (wordmap_handler_call body ws T W N) as [k [E [Hk _]]].
    eexists. exists k. split; [exact E|].
    rewrite Hk, P. split.
    + intros A.
      destruct (normalized ws parsed) as [entries|] eqn:Q.
      * exists entries. split; [reflexivity|].
        exact (normalized_entries _ _ _ Q).
      * apply normalized_throws in Q. destruct Q as [i [L H]].
        destruct (A i L) as [he Hhe]. rewrite Hhe in H. discriminate.
    + intros B. apply normalized_throws in B. rewrite B. reflexivity.
Qed.

(** C1 fails as stated: the sentence "ek din" has two words and the
    completion is parsed at the first attempt, but its gloss of the first
    word is an object that cannot be converted to text, and the response is
    an error with status 500, not a list of two entries. And the sentence 0
    is the text "0" of one word when converted, but it fails the check of
    the required input. *)
Lemma wordmap_parsed_but_no_list :
  words_of (input_of Wordmap body_ek_din) = Some [u "ek"; u "din"]
  /\ parse_raw (trim (content_or_empty (Some completion_he_object)))
     = inr parsed_he_object
  /\ match wordmap_handler body_ek_din with
     | CallCompletion _ _ k =>
       k (Completed (Some completion_he_object))
       = JsonError 500 (u "Wordmap error") ConversionError
     | _ => False
     end
  /\ words_of (input_of Wordmap body_sentence_zero) = Some [u "0"]
  /\ wordmap_handler body_sentence_zero
     = Respond (Json 400 (error_body "Missing sentence")).
Proof.
  split; [vm_compute; reflexivity|].
  split; [vm_compute; reflexivity|].
  split; [vm_compute; reflexivity|].
  split; vm_compute; reflexivity.
Qed.

(** The example of the specification. *)
Example wordmap_ek_din :
  exists prompt k,
    wordmap_handler body_ek_din = CallCompletion model prompt k
    /\ k (Completed (Some completion_ek))
       = Json 200
           (obj1 "words"
              (VArr [VObj [(u "hi", VStr (u "ek")); (u "he", VStr (lit "אחד"))];
                     VObj [(u "hi", VStr (u "din")); (u "he", VStr [])]]))
    /\ k (Completed (Some completion_wrapped))
       = k (Completed (Some completion_ek)).
Proof.
  do 2 eexists. split; [reflexivity|]. split; vm_compute; reflexivity.
Qed.

(** ** The handlers at work *)

(** A request to speak two words, slowly and with a pause. *)
Example speak_markup :
  match
    speak_handler
      (VObj [(u "text", VStr (u " a  <b> ")); (u "rate", VNum (num 90));
             (u "pauseMs", VNum (num 500))])
  with
  | CallSpeech ssml _ =>
    ssml
    = join [10]
        [dq (u "<speak version=`1.0` xml:lang=`hi-IN` xmlns=`http://www.w3.org/2001/10/synthesis`>");
         dq (u "  <voice name=`hi-IN-SwaraNeural`>");
         dq (u "    <prosody rate=`slow`>");
         dq (u "      a<break time=`500ms`/>&lt;b&gt;");
         u "    </prosody>";
         u "  </voice>";
         u "</speak>"]
  | _ => False
  end.
Proof. vm_compute. reflexivity. Qed.

(** A summary of three lines, of which the Latin one is dropped. *)
Example summarize_three_lines :
  match summarize_handler (obj1 "text" (VStr (u "news"))) with
  | CallCompletion _ _ k =>
    k (Completed (Some completion_three_lines))
    = Json 200
        (obj1 "result" (VStr (lit "नमस्ते" ++ [10] ++ lit "שלום")))
  | _ => False
  end.
Proof. vm_compute. reflexivity. Qed.

(** Conversions of values: the conversion of an object with a [toString]
    entry of its own throws, as does that of an array that holds one; an
    own [valueOf] entry does no harm. *)
Example conversions :
  map ToString
    [VObj []; VObj [(u "valueOf", VNum (num 1))];
     VObj [(u "toString", VNum (num 1))];
     VArr [VNum (num 1); VNull; VStr (u "a")];
     VArr [VObj [(u "toString", VNum (num 1))]]]
  = [Some (u "[object Object]"); Some (u "[object Object]"); None;
     Some (u "1,,a"); None]
  /\ map ToNumber
       [VObj []; VObj [(u "toString", VNum (num 1))]; VArr [];
        VArr [VStr (u "7")]; VStr (u "abc"); VNull; VUndefined]
     = [Some NaN; None; Some (num 0); Some (num 7); Some NaN; Some (num 0);
        Some NaN].
Proof. split; vm_compute; reflexivity. Qed.

(** Conversions between numbers and text. *)
Example number_text :
  map StringToNumber [u "12"; u " 0x1F "; u "1e3"; u "abc"; u "12px"; []]
  = [num 12; num 31; num 1000; NaN; NaN; num 0]
  /\ map NumberToString
       [num 500; Fin (3 # 2); StringToNumber (u "0.1"); StringToNumber (u "1e21")]
     = [u "500"; u "1.5"; u "0.1"; u "1e+21"].
Proof. split; vm_compute; reflexivity. Qed.

(** ** The properties at concrete inputs *)

Lemma wordmap_positional_witness :
  words_of (input_of Wordmap body_ek_din) = Some [u "ek"; u "din"]
  /\ [u "ek"; u "din"] <> []
  /\ parse_raw (trim (content_or_empty (Some completion_ek))) = inr parsed_ek
  /\ exists prompt k entries,
       wordmap_handler body_ek_din = CallCompletion model prompt k
       /\ k (Completed (Some completion_ek))
          = Json 200 (obj1 "words" (VArr entries))
       /\ List.length entries = 2%nat.
Proof.
  assert (W : words_of (input_of Wordmap body_ek_din)
              = Some [u "ek"; u "din"]) by (vm_compute; reflexivity).
  assert (N : [u "ek"; u "din"] <> []) by discriminate.
  assert (P : parse_raw (trim (content_or_empty (Some completion_ek)))
              = inr parsed_ek) by (vm_compute; reflexivity).
  destruct (wordmap_positional body_ek_din (Some completion_ek) parsed_ek
              [u "ek"; u "din"] W N P) as [_ [H _]].
  destruct (H eq_refl) as [prompt [k [E [A _]]]].
  assert (C : forall i,
             (i < List.length [u "ek"; u "din"])%nat ->
             exists he, he_of (index (out_of parsed_ek) i) = Some he).
  { intros [|[|i]] L; [eexists; vm_compute; reflexivity..|simpl in L; lia]. }
  destruct (A C) as [entries [R [L _]]].
  split; [exact W|]. split; [exact N|]. split; [exact P|].
  exists prompt, k, entries. split; [exact E|]. split; [exact R|exact L].
Defined.

Lemma count_clamped_witness :
  ToBoolean (get "count" (obj1 "count" (VStr (u "50")))) = true
  /\ count (obj1 "count" (VStr (u "50"))) = Some (num 20).
Proof.
  split; [reflexivity|].
  destruct (count_clamped (obj1 "count" (VStr (u "50")))) as [H _].
  rewrite (H eq_refl). vm_compute. reflexivity.
Defined.

Lemma rate_clamped_and_tiered_witness :
  ToBoolean (VNum (num 90)) = true
  /\ effective_rate (VNum (num 90)) = Some (num 90)
  /\ ratePercentToSsmlRate (VNum (num 90)) = Some (u "slow").
Proof.
  destruct (rate_clamped_and_tiered (VNum (num 90)))
    as [H [_ [_ [_ [_ [S _]]]]]].
  assert (E : effective_rate (VNum (num 90)) = Some (num 90))
    by (rewrite (H eq_refl); reflexivity).
  split; [reflexivity|]. split; [exact E|].
  destruct (S (num 90) E) as [_ [S2 _]]. apply S2; reflexivity.
Defined.


Lemma summarize_line_filter_witness :
  kept_lines completion_three_lines = [lit "नमस्ते"; lit "שלום"]
  /\ keep_line (u "hello world") = [].
Proof.
  destruct (summarize_line_filter completion_three_lines) as [K [_ [D _]]].
  split.
  - rewrite K. vm_compute. reflexivity.
  - apply D. intros c Hin.
    unfold in_script. simpl in Hin.
    repeat (destruct Hin as [<-|Hin]; [lia|]). contradiction.
Defined.

Lemma missing_input_400_witness :
  input_of Wordmap (VObj []) = VUndefined
  /\ handler_of Wordmap (VObj [])
     = Respond (Json 400 (error_body "Missing sentence"))
  /\ calls (handler_of Wordmap (VObj [])) = 0%nat.
Proof.
  split; [reflexivity|].
  exact (missing_input_400 Wordmap (VObj []) eq_refl).
Defined.

Lemma completion_parsed_twice_witness :
  JSON_parse completion_wrapped = None
  /\ braced completion_wrapped completion_ek
  /\ parse_raw completion_wrapped = inr parsed_ek
  /\ exists prompt k,
       wordmap_handler body_ek_din = CallCompletion model prompt k
       /\ k (Completed (Some completion_wrapped))
          = Json 200
              (obj1 "words"
                 (VArr [entry (u "ek") (lit "אחד"); entry (u "din") []])).
Proof.
  assert (N : JSON_parse completion_wrapped = None) by (vm_compute; reflexivity).
  assert (B : braced completion_wrapped completion_ek).
  { exists (u "Sure! "),
      (dq (lit "`words`:[{`hi`:`ek`,`he`:`אחד`}]")), (u " Done.").
    split; [vm_compute; reflexivity|].
    split; [vm_compute; intuition discriminate|].
    split; [vm_compute; intuition discriminate|].
    vm_compute; reflexivity. }
  destruct (completion_parsed_twice completion_wrapped) as [_ [F [_ [_ H]]]].
  assert (P : parse_raw completion_wrapped = inr parsed_ek)
    by (rewrite (F completion_ek N B); vm_compute; reflexivity).
  split; [exact N|]. split; [exact B|]. split; [exact P|].
  assert (W : words_of (input_of Wordmap body_ek_din)
              = Some [u "ek"; u "din"]) by (vm_compute; reflexivity).
  assert (D : [u "ek"; u "din"] <> []) by discriminate.
  assert (R : trim (content_or_empty (Some completion_wrapped))
              = completion_wrapped) by (vm_compute; reflexivity).
  destruct (H body_ek_din (Some completion_wrapped) _ eq_refl W D R)
    as [prompt [k [E [_ G]]]].
  exists prompt, k. split; [exact E|].
  destruct (G parsed_ek P) as [G1 _].
  apply G1. vm_compute. reflexivity.
Defined.

Lemma startup_check_witness :
  (forall k, In k required -> configured env_full k)
  /\ startup env_full = Listen (VNum (num 3001)).
Proof.
  assert (C : forall k, In k required -> configured env_full k).
  { intros k Hk. simpl in Hk.
    destruct Hk as [H|[H|[H|[H|[]]]]]; rewrite <- H;
      eexists; (split; [reflexivity|discriminate]). }
  destruct (startup_check env_full) as [_ [_ [_ L]]].
  split; [exact C|]. rewrite (L C). reflexivity.
Defined.

Lemma falsy_rate_and_pause_defaults_witness :
  ToBoolean (VNum (num 0)) = false
  /\ ratePercentToSsmlRate (VNum (num 0)) = Some (u "medium")
  /\ ssml_body (VStr (u "a b")) (VNum (num 0)) = Some (u "a b").
Proof.
  destruct (falsy_rate_and_pause_defaults (VNum (num 0)) eq_refl)
    as [_ [M [_ [J _]]]].
  split; [reflexivity|]. split; [exact M|].
  rewrite J. vm_compute. reflexivity.
Defined.

Lemma falsy_input_as_missing_witness :
  In (input_of Speak (obj1 "text" (VStr []))) [VStr []; VNum (num 0); VBool false; VNull]
  /\ handler_of Speak (obj1 "text" (VStr []))
     = Respond (Json 400 (error_body "Missing text"))
  /\ calls (handler_of Speak (obj1 "text" (VStr []))) = 0%nat.
Proof.
  assert (I : In (input_of Speak (obj1 "text" (VStr [])))
                 [VStr []; VNum (num 0); VBool false; VNull])
    by (left; reflexivity).
  destruct (falsy_input_as_missing Speak (obj1 "text" (VStr []))) as [_ H].
  destruct (H I) as [R [_ C]].
  split; [exact I|]. split; [exact R|exact C].
Defined.

(** * Further properties of the code *)

(** ** [escapeXml] *)

Lemma replaceAll_app (c : Z) (rep a b : jsstring) :
  replaceAll c rep (a ++ b) = replaceAll c rep a ++ replaceAll c rep b.
Proof. unfold replaceAll. apply flat_map_app. Qed.

Lemma escapeXml_app (a b : jsstring) :
  escapeXml (a ++ b) = escapeXml a ++ escapeXml b.
Proof. unfold escapeXml. rewrite !replaceAll_app. reflexivity. Qed.

Lemma escapeXml_one (c : Z) : escapeXml [c] = escape_char c.
Proof.
  unfold escape_char.
  destruct (Z.eqb_spec c 38) as [->|H38]; [reflexivity|].
  destruct (Z.eqb_spec c 60) as [->|H60]; [reflexivity|].
  destruct (Z.eqb_spec c 62) as [->|H62]; [reflexivity|].
  destruct (Z.eqb_spec c 34) as [->|H34]; [reflexivity|].
  destruct (Z.eqb_spec c 39) as [->|H39]; [reflexivity|].
  unfold escapeXml, replaceAll. simpl.
  apply Z.eqb_neq in H38, H60, H62, H34, H39.
  rewrite H38. simpl. rewrite H60. simpl. rewrite H62. simpl.
  rewrite H34. simpl. rewrite H39. reflexivity.
Qed.

Lemma escapeXml_flat_map (s : jsstring) :
  escapeXml s = flat_map escape_char s.
Proof.
  induction s as [|c r IH]; [reflexivity|].
  change (c :: r) with ([c] ++ r).
  rewrite escapeXml_app, escapeXml_one, IH. reflexivity.
Qed.

Lemma escape_char_cases (c : Z) :
  (c = 38 /\ escape_char c = u "&amp;")
  \/ (c = 60 /\ escape_char c = u "&lt;")
  \/ (c = 62 /\ escape_char c = u "&gt;")
  \/ (c = 34 /\ escape_char c = u "&quot;")
  \/ (c = 39 /\ escape_char c = u "&apos;")
  \/ (~ xml_reserved c /\ escape_char c = [c]).
Proof.
  unfold escape_char, xml_reserved.
  destruct (Z.eqb_spec c 38); [tauto|].
  destruct (Z.eqb_spec c 60); [tauto|].
  destruct (Z.eqb_spec c 62); [tauto|].
  destruct (Z.eqb_spec c 34); [tauto|].
  destruct (Z.eqb_spec c 39); [tauto|].
  do 5 right. split; [tauto|reflexivity].
Qed.

Lemma escape_flat_map_injective (a : jsstring) :
  forall b, flat_map escape_char a = flat_map escape_char b -> a = b.
Proof.
  induction a as [|x a' IH]; intros [|y b'] H.
  - reflexivity.
  - exfalso. simpl in H.
    destruct (escape_char_cases y) as [[_ E]|[[_ E]|[[_ E]|[[_ E]|[[_ E]|[_ E]]]]]];
      rewrite E in H; discriminate.
  - exfalso. simpl in H.
    destruct (escape_char_cases x) as [[_ E]|[[_ E]|[[_ E]|[[_ E]|[[_ E]|[_ E]]]]]];
      rewrite E in H; discriminate.
  - simpl in H.
    destruct (escape_char_cases x)
      as [[X E]|[[X E]|[[X E]|[[X E]|[[X E]|[X E]]]]]];
      destruct (escape_char_cases y)
        as [[Y F]|[[Y F]|[[Y F]|[[Y F]|[[Y F]|[Y F]]]]]];
      rewrite E, F in H; unfold xml_reserved in *;
      try discriminate;
      try (simpl in H; injection H as H1 H2; exfalso; lia);
      try (simpl in H; injection H as H2; subst; f_equal; exact (IH _ H2));
      try (simpl in H; injection H as H1 H2; subst; f_equal; exact (IH _ H2)).
Qed.

(** X1. [escapeXml] rewrites each character once: the five replacements in a
    row give what one pass over the text gives, so the [&] of an entity it
    has written is never escaped again. Nothing is lost: two texts with the
    same escaped form are the same text; the escaped form of a
    concatenation is the concatenation of the escaped forms; and a text
    with none of the five characters is left as it is. *)
Theorem escapeXml_one_pass :
  (forall s, escapeXml s = flat_map escape_char s)
  /\ (forall a b, escapeXml a = escapeXml b -> a = b)
  /\ (forall a b, escapeXml (a ++ b) = escapeXml a ++ escapeXml b)
  /\ (forall s, (forall c, In c s -> ~ xml_reserved c) -> escapeXml s = s).
Proof.
  split; [exact escapeXml_flat_map|]. split; [|split; [exact escapeXml_app|]].
  - intros a b H. rewrite !escapeXml_flat_map in H.
    exact (escape_flat_map_injective a b H).
  - intros s Hs. rewrite escapeXml_flat_map.
    induction s as [|c r IH]; [reflexivity|].
    simpl.
    destruct (escape_char_cases c)
      as [[X _]|[[X _]|[[X _]|[[X _]|[[X _]|[_ E]]]]]];
      try (exfalso; apply (Hs c (or_introl eq_refl)); unfold xml_reserved; lia).
    rewrite E, IH; [reflexivity|].
    intros d Hd. apply Hs. right. exact Hd.
Qed.

(** ** The words of a text *)

Lemma tokens_words (s : jsstring) : Forall is_word (tokens s).
Proof.
  induction s as [|c r IH]; [constructor|].
  simpl. destruct (isWhite c) eqn:W; [exact IH|].
  assert (Hc : is_word [c]).
  { split; [discriminate|]. intros d [<-|[]]. exact W. }
  destruct (startsWhite r || negb (nonEmpty r)).
  - constructor; assumption.
  - destruct (tokens r) as [|t ts]; [constructor; [exact Hc|constructor]|].
    inversion IH as [|? ? [Ht1 Ht2] Hts]; subst.
    constructor; [|exact Hts].
    split; [discriminate|]. intros d [<-|Hd]; [exact W|exact (Ht2 d Hd)].
Qed.

Lemma tokens_word_app (w : jsstring) (c : Z) (rest : jsstring) :
  is_word w -> isWhite c = true ->
  tokens (w ++ c :: rest) = w :: tokens rest.
Proof.
  intros [Hn Hw] Hc. induction w as [|x w' IH]; [contradiction|].
  assert (Hx : isWhite x = false) by (apply Hw; left; reflexivity).
  simpl. rewrite Hx. destruct w' as [|y w''].
  - simpl. rewrite Hc. reflexivity.
  - assert (Hy : isWhite y = false) by (apply Hw; right; left; reflexivity).
    simpl startsWhite. simpl nonEmpty. rewrite Hy. simpl orb. cbv iota.
    rewrite IH; [reflexivity|discriminate|].
    intros d Hd. apply Hw. right. exact Hd.
Qed.

Lemma tokens_word (w : jsstring) : is_word w -> tokens w = [w].
Proof.
  intros H. rewrite <- (tokens_app_white w [32] eq_refl).
  apply (tokens_word_app w 32 [] H eq_refl).
Qed.

Lemma tokens_join (ws : list jsstring) :
  Forall is_word ws -> tokens (join [32] ws) = ws.
Proof.
  induction ws as [|w rest IH]; intros H; [reflexivity|].
  inversion H as [|? ? Hw Hrest]; subst.
  destruct rest as [|w2 rest'].
  - simpl. apply tokens_word. exact Hw.
  - change (join [32] (w :: w2 :: rest'))
      with (w ++ 32 :: join [32] (w2 :: rest')).
    rewrite tokens_word_app by (exact Hw || reflexivity).
    rewrite IH by exact Hrest. reflexivity.
Qed.

(** X2. The word list of [String(v).trim().split(/\s+/).filter(Boolean)],
    for a value that [String] converts to the text [s]: no word is empty or
    holds white space; the words hold, in order, every character of the text
    that is not white space; and joining the words with one space and
    splitting again gives the same words. *)
Theorem words_split_join (v : value) :
  words_of v = option_map words_of_text (ToString v)
  /\ (forall s,
        ToString v = Some s ->
        exists ws,
          words_of v = Some ws
          /\ Forall is_word ws
          /\ List.concat ws = filter (fun c => negb (isWhite c)) s
          /\ words_of (VStr (join [32] ws)) = Some ws).
Proof.
  split; [reflexivity|]. intros s E. exists (tokens s).
  unfold words_of. rewrite E. simpl. rewrite !words_of_tokens.
  split; [reflexivity|]. split; [apply tokens_words|].
  split; [apply tokens_concat|].
  f_equal. apply tokens_join. apply tokens_words.
Qed.

(** X3. A text of white space only is not the empty text: it passes the
    check of the required input. On [/api/wordmap] it has no word, and the
    answer is the empty word list, with no outbound call; on
    [/api/summarize] the provider is still called; on [/api/speak] it is
    called, with a markup whose body holds no word, when the rate and the
    pause can be converted to numbers, and the handler throws before the
    call when one of them cannot. *)
Theorem blank_text_input (s : jsstring) (body : value) :
  s <> [] -> forallb isWhite s = true ->
  (input_of Wordmap body = VStr s ->
   wordmap_handler body = Respond (Json 200 (obj1 "words" (VArr []))))
  /\ (input_of Speak body = VStr s ->
      let rate :=
        default (get "rate" (js_or body (VObj []))) (VNum (num 100)) in
      let pauseMs :=
        default (get "pauseMs" (js_or body (VObj []))) (VNum (num 0)) in
      (forall tier,
         ratePercentToSsmlRate rate = Some tier ->
         ToNumber pauseMs <> None ->
         calls (speak_handler body) = 1%nat
         /\ exists k,
              speak_handler body = CallSpeech (ssml_template tier []) k)
      /\ (ToNumber rate = None \/ ToNumber pauseMs = None ->
          speak_handler body = Throws ConversionError
          /\ calls (speak_handler body) = 0%nat)
      /\ (forall p, ToNumber p <> None -> ssml_body (VStr s) p = Some []))
  /\ (input_of Summarize body = VStr s ->
      calls (summarize_handler body) = 1%nat).
Proof.
  intros Hs Hw.
  assert (T : ToBoolean (VStr s) = true) by (destruct s; [contradiction|reflexivity]).
  assert (W : words_of (VStr s) = Some []).
  { unfold words_of. simpl. rewrite words_of_tokens.
    f_equal. apply tokens_white. exact Hw. }
  assert (B : forall p, ToNumber p <> None -> ssml_body (VStr s) p = Some []).
  { intros p Hp. unfold ssml_body. rewrite W.
    destruct (safePause p) as [n|] eqn:P; [reflexivity|].
    unfold safePause in P. apply option_map_none, to_number_or in P.
    contradiction. }
  unfold input_of, required_field. split; [|split].
  - intros E. unfold wordmap_handler. cbv zeta. rewrite E, T, W. reflexivity.
  - intros E. cbv zeta. rewrite <- E in T.
    pose proof (speak_handler_call body T) as H.
    set (rate := default (get "rate" _) _) in *.
    set (pauseMs := default (get "pauseMs" _) _) in *.
    rewrite E in H.
    split; [|split; [|exact B]].
    + intros tier R P. unfold buildHindiSsml in H.
      rewrite R, (B pauseMs P) in H. destruct H as [k [Hk _]].
      rewrite Hk. split; [reflexivity|]. exists k. reflexivity.
    + intros C.
      assert (N : buildHindiSsml (VStr s) rate pauseMs = None)
        by (apply buildHindiSsml_throws; right; exact C).
      rewrite N in H. rewrite H. split; reflexivity.
  - intros E. rewrite <- E in T.
    pose proof (summarize_handler_call body T) as H.
    rewrite E in H. simpl in H. destruct H as [k [Hk _]].
    rewrite Hk. reflexivity.
Qed.

(** ** The glosses of the word map *)

Lemma mapi_ext_in {A B : Type} (f g : A -> nat -> B) (xs : list A) :
  forall i,
    (forall n x, nth_error xs n = Some x -> f x (i + n)%nat = g x (i + n)%nat) ->
    mapi f i xs = mapi g i xs.
Proof.
  induction xs as [|x r IH]; intros i H; [reflexivity|].
  simpl. f_equal.
  - specialize (H 0%nat x eq_refl). rewrite Nat.add_0_r in H. exact H.
  - apply IH. intros n y Hn. specialize (H (S n) y Hn).
    rewrite Nat.add_succ_r in H. exact H.
Qed.

Lemma mapi_const {A B : Type} (f : A -> B) (xs : list A) :
  forall i, mapi (fun x _ => f x) i xs = map f xs.
Proof.
  induction xs as [|x r IH]; intros i; [reflexivity|].
  simpl. rewrite IH. reflexivity.
Qed.

Lemma out_of_array (parsed : value) (xs : list value) :
  get "words" parsed = VArr xs -> out_of parsed = VArr xs.
Proof. unfold out_of. intros ->. reflexivity. Qed.

Lemma out_of_other (parsed : value) :
  (forall xs, get "words" parsed <> VArr xs) -> out_of parsed = VArr [].
Proof.
  unfold out_of. intros H.
  destruct (get "words" parsed) as [| | | | |xs|] eqn:E; try reflexivity.
  exfalso. exact (H xs eq_refl).
Qed.

Lemma sequence_map_Some {A : Type} (xs : list A) :
  sequence (map Some xs) = Some xs.
Proof.
  induction xs as [|x r IH]; [reflexivity|]. simpl. rewrite IH. reflexivity.
Qed.

Lemma to_string_throws_truthy (v : value) :
  ToString v = None -> ToBoolean v = true.
Proof.
  destruct v as [| |[|]|n|s|xs|props]; try discriminate; reflexivity.
Qed.

(** The gloss of an entry cannot be read exactly when its [he] cannot be
    converted to text: such a [he] is an object or an array, which is
    truthy, in an entry that is an object. *)
Lemma he_of_item_throws (item : value) :
  he_of item = None <-> ToString (get "he" item) = None.
Proof.
  rewrite he_of_throws. split; [tauto|]. intros H.
  split; [|split; [exact (to_string_throws_truthy _ H)|exact H]].
  destruct item; try discriminate H. reflexivity.
Qed.

(** The entry the map gives at a position, when it does not throw. *)
Lemma normalized_nth (words : list jsstring) (parsed : value)
      (entries : list value) (i : nat) (w : jsstring) :
  normalized words parsed = Some entries ->
  nth_error words i = Some w ->
  nth_error entries i = normalize_word (out_of parsed) w i.
Proof.
  unfold normalized. intros H Hw.
  pose proof (sequence_nth_error _ _ H i) as N.
  rewrite mapi_nth_error, Hw in N. simpl in N.
  destruct (nth_error entries i); [|discriminate].
  simpl in N. injection N as N. symmetry. exact N.
Qed.

(** X4. When the map over the words does not throw, the gloss of the word at
    position [i] comes from the entry at position [i] of the completion's
    [words] array and from nothing else: when the array is shorter the gloss
    is empty; when the entry's [he] is a text, the gloss is that whole text
    if it holds a Hebrew character (the rest of the text is kept as it is)
    and empty if it holds none; when the entry's [he] is falsy or missing
    the gloss is empty; every other [he] is converted to text first. The
    map throws, and there is no gloss at all, exactly when the [he] of an
    entry at the position of some word cannot be converted to text. *)
Theorem gloss_by_position (words : list jsstring) (parsed : value)
        (xs : list value) (i : nat) (w : jsstring) :
  get "words" parsed = VArr xs ->
  nth_error words i = Some w ->
  (forall entries,
     normalized words parsed = Some entries ->
     (nth_error xs i = None -> nth_error entries i = Some (entry w []))
     /\ (forall item s,
           nth_error xs i = Some item -> get "he" item = VStr s ->
           nth_error entries i
           = Some (entry w (if hasHebrew s then s else [])))
     /\ (forall item,
           nth_error xs i = Some item -> ToBoolean (get "he" item) = false ->
           nth_error entries i = Some (entry w []))
     /\ (forall item,
           nth_error xs i = Some item -> ToBoolean (get "he" item) = true ->
           exists t,
             ToString (get "he" item) = Some t
             /\ nth_error entries i
                = Some (entry w (if hasHebrew t then t else []))))
  /\ (normalized words parsed = None
      <-> exists j item,
            (j < List.length words)%nat
            /\ nth_error xs j = Some item
            /\ ToString (get "he" item) = None).
Proof.
  intros A Hw. split.
  - intros entries N.
    rewrite (normalized_nth _ _ _ _ _ N Hw), (out_of_array parsed xs A).
    unfold normalize_word, he_of, entry. cbv zeta. simpl index.
    split; [|split; [|split]].
    + intros E. apply nth_error_None in E.
      rewrite (nth_overflow xs VUndefined E). reflexivity.
    + intros item s Hi He.
      rewrite (nth_error_nth xs i VUndefined Hi), He.
      destruct item; try discriminate. simpl ToBoolean. simpl ToString.
      destruct s as [|c r]; [reflexivity|]. simpl andb. cbv iota.
      destruct (hasHebrew (c :: r)); reflexivity.
    + intros item Hi He.
      rewrite (nth_error_nth xs i VUndefined Hi), He.
      rewrite andb_false_r. reflexivity.
    + intros item Hi He.
      assert (Q : nth_error entries i
                  = normalize_word (out_of parsed) w i)
        by exact (normalized_nth _ _ _ _ _ N Hw).
      assert (I : ToBoolean item = true)
        by (destruct item; try discriminate He; reflexivity).
      rewrite (nth_error_nth xs i VUndefined Hi), He, I. simpl andb. cbv iota.
      destruct (ToString (get "he" item)) as [t|] eqn:S.
      * exists t. split; [reflexivity|].
        destruct (hasHebrew t); reflexivity.
      * exfalso.
        assert (X : normalized words parsed = None).
        { apply normalized_throws. exists i. split.
          - apply nth_error_Some. rewrite Hw. discriminate.
          - rewrite (out_of_array parsed xs A). simpl index.
            rewrite (nth_error_nth xs i VUndefined Hi).
            apply he_of_item_throws. exact S. }
        rewrite X in N. discriminate.
  - rewrite normalized_throws, (out_of_array parsed xs A). simpl index.
    split.
    + intros [j [L H]]. apply he_of_item_throws in H.
      destruct (nth_error xs j) as [item|] eqn:E.
      * exists j, item. rewrite (nth_error_nth xs j VUndefined E) in H.
        split; [exact L|]. split; [exact E|exact H].
      * apply nth_error_None in E.
        rewrite (nth_overflow xs VUndefined E) in H. discriminate.
    + intros [j [item [L [E H]]]]. exists j. split; [exact L|].
      rewrite (nth_error_nth xs j VUndefined E).
      apply he_of_item_throws. exact H.
Qed.

(** X5. What the completion holds besides the glosses does not matter: when
    its [words] is not an array (or the completion is no object at all),
    every word gets the empty gloss; and the entries after the last word are
    ignored. *)
Theorem completion_shape_tolerated (words : list jsstring) (parsed : value) :
  ((forall xs, get "words" parsed <> VArr xs) ->
   normalized words parsed = Some (map (fun w => entry w []) words))
  /\ (forall xs surplus,
        get "words" parsed = VArr (xs ++ surplus) ->
        (List.length words <= List.length xs)%nat ->
        normalized words parsed = normalized words (obj1 "words" (VArr xs))).
Proof.
  split.
  - intros H. unfold normalized. rewrite (out_of_other parsed H).
    rewrite <- sequence_map_Some, map_map. f_equal.
    rewrite <- (mapi_const (fun w => Some (entry w [])) words 0).
    apply mapi_ext_in. intros n x _. unfold normalize_word, he_of. simpl.
    destruct n; reflexivity.
  - intros xs surplus A L. unfold normalized. f_equal.
    rewrite (out_of_array parsed _ A).
    apply mapi_ext_in. intros n x Hn. simpl.
    assert (Hlt : (n < List.length xs)%nat).
    { apply Nat.lt_le_trans with (List.length words); [|exact L].
      apply nth_error_Some. rewrite Hn. discriminate. }
    unfold normalize_word. simpl index. rewrite (app_nth1 xs surplus VUndefined Hlt).
    reflexivity.
Qed.

(** ** The level of the summary *)

Lemma str_eqb_eq (a b : jsstring) : str_eqb a b = true <-> a = b.
Proof.
  unfold str_eqb. destruct (list_eq_dec Z.eq_dec a b); split; auto; discriminate.
Qed.

Lemma default_defined (l d : value) : l <> VUndefined -> default l d = l.
Proof. intros H. destruct l; try reflexivity. contradiction. Qed.

(** The guide of a level, after the default, by the cases of the level. *)
Lemma guide_of_level (level : value) :
  ((level = VUndefined \/ level = VStr (u "beginner"))
   /\ levelGuide (default level (VStr (u "beginner")))
      = levelGuide (VStr (u "beginner")))
  \/ (level = VStr (u "intermediate")
      /\ levelGuide (default level (VStr (u "beginner")))
         = levelGuide (VStr (u "intermediate")))
  \/ ((level <> VUndefined /\ level <> VStr (u "beginner")
       /\ level <> VStr (u "intermediate"))
      /\ levelGuide (default level (VStr (u "beginner")))
         = levelGuide (VStr (u "advanced"))).
Proof.
  destruct level as [| |b|n|s|xs|props].
  - left. split; [left; reflexivity|vm_compute; reflexivity].
  - do 2 right. split; [repeat split; discriminate|vm_compute; reflexivity].
  - do 2 right. split; [repeat split; discriminate|vm_compute; reflexivity].
  - do 2 right. split; [repeat split; discriminate|vm_compute; reflexivity].
  - rewrite default_defined by discriminate.
    destruct (str_eqb s (u "beginner")) eqn:B.
    + left. apply str_eqb_eq in B. subst s. split; [right|]; reflexivity.
    + destruct (str_eqb s (u "intermediate")) eqn:I.
      * right; left. apply str_eqb_eq in I. subst s. split; reflexivity.
      * do 2 right. split.
        -- repeat split; try discriminate; intros E; injection E as E;
             apply str_eqb_eq in E; congruence.
        -- unfold levelGuide at 1. rewrite B, I. vm_compute. reflexivity.
  - do 2 right. split; [repeat split; discriminate|vm_compute; reflexivity].
  - do 2 right. split; [repeat split; discriminate|vm_compute; reflexivity].
Qed.

Lemma level_guides_differ :
  levelGuide (VStr (u "beginner")) <> levelGuide (VStr (u "intermediate"))
  /\ levelGuide (VStr (u "beginner")) <> levelGuide (VStr (u "advanced"))
  /\ levelGuide (VStr (u "intermediate")) <> levelGuide (VStr (u "advanced")).
Proof.
  repeat split; intros H; vm_compute in H; discriminate.
Qed.

Lemma trimStart_app_black (a b : jsstring) (c : Z) :
  isWhite c = false -> trimStart (a ++ c :: b) = trimStart a ++ c :: b.
Proof.
  intros H. induction a as [|x a IH]; simpl.
  - rewrite H. reflexivity.
  - destruct (isWhite x); [exact IH|reflexivity].
Qed.

(** The trim of an end stops at a character that is not white space. *)
Lemma trimEnd_app_black (a b : jsstring) (c : Z) :
  isWhite c = false -> trimEnd (a ++ c :: b) = a ++ c :: trimEnd b.
Proof.
  intros H. unfold trimEnd.
  rewrite rev_app_distr. simpl rev. rewrite <- app_assoc. simpl app.
  rewrite (trimStart_app_black _ _ _ H), rev_app_distr. simpl rev.
  rewrite rev_involutive, <- app_assoc. reflexivity.
Qed.

Lemma join_cons (sep x : jsstring) (xs : list jsstring) :
  xs <> [] -> join sep (x :: xs) = x ++ sep ++ join sep xs.
Proof. destruct xs; [contradiction|reflexivity]. Qed.

Lemma join_snoc (sep x : jsstring) (xs : list jsstring) :
  xs <> [] -> join sep (xs ++ [x]) = join sep xs ++ sep ++ x.
Proof.
  induction xs as [|y r IH]; [contradiction|]. intros _.
  destruct r as [|z r'].
  - reflexivity.
  - change ((y :: z :: r') ++ [x]) with (y :: (z :: r') ++ [x]).
    rewrite join_cons by discriminate.
    rewrite IH by discriminate.
    rewrite (join_cons sep y (z :: r')) by discriminate.
    rewrite <- !app_assoc. reflexivity.
Qed.

(** The prompt of the summary, line by line: the first line, the guide, the
    rules, and the text after one line break, with no white space at its
    end. The trims of the template take the line break before the first
    line and the white space from the end of the text on, and nothing
    else. *)
Lemma summarize_prompt_lines (guide text : jsstring) :
  summarize_prompt guide text
  = summarize_head ++ [10] ++ guide ++ [10]
    ++ join [10] summarize_rules ++ trimEnd (10 :: text ++ [10]).
Proof.
  assert (Hh : exists c r, summarize_head = c :: r /\ isWhite c = false)
    by (vm_compute; do 2 eexists; split; reflexivity).
  assert (Hr : exists a c,
             join [10] summarize_rules = a ++ [c] /\ isWhite c = false).
  { exists (removelast (join [10] summarize_rules)),
      (last (join [10] summarize_rules) 0).
    split; [|vm_compute; reflexivity].
    apply app_removelast_last. vm_compute. discriminate. }
  assert (Hn : summarize_rules <> []) by (vm_compute; discriminate).
  unfold summarize_prompt.
  generalize dependent summarize_rules. generalize dependent summarize_head.
  intros head [c [r [-> Hc]]] rules [a [d [Ha Hd]]] Hn.
  change ([c :: r; guide] ++ rules ++ [text])
    with ((c :: r) :: guide :: rules ++ [text]).
  rewrite join_cons by discriminate.
  rewrite join_cons by (destruct rules; discriminate).
  rewrite join_snoc by exact Hn.
  unfold trim. simpl trimStart. rewrite Hc. rewrite Ha.
  match goal with
  | |- trimEnd ?x = _ =>
    replace x
      with ((c :: r ++ 10 :: guide ++ 10 :: a) ++ d :: 10 :: text ++ [10])
  end.
  2: { simpl. f_equal. repeat (rewrite <- app_assoc; simpl). reflexivity. }
  rewrite (trimEnd_app_black _ _ _ Hd).
  simpl. f_equal. repeat (rewrite <- app_assoc; simpl). reflexivity.
Qed.

Lemma trimStart_app (a b : jsstring) :
  trimStart a <> [] -> trimStart (a ++ b) = trimStart a ++ b.
Proof.
  induction a as [|x a IH]; simpl; [contradiction|].
  destruct (isWhite x); [exact IH|reflexivity].
Qed.

Lemma trimStart_nil (s : jsstring) :
  trimStart s = [] -> forallb isWhite s = true.
Proof.
  induction s as [|x s IH]; [reflexivity|]. simpl.
  destruct (isWhite x); [exact IH|discriminate].
Qed.

(** A text that is not white space only keeps the line break before it. *)
Lemma trimEnd_line (text : jsstring) :
  forallb isWhite text = false ->
  trimEnd (10 :: text ++ [10]) = 10 :: trimEnd text.
Proof.
  intros H. unfold trimEnd. simpl rev. rewrite rev_app_distr. simpl rev.
  simpl app. simpl trimStart.
  assert (N : trimStart (rev text) <> []).
  { intros E. apply trimStart_nil, forallb_rev in E.
    rewrite rev_involutive in E. rewrite E in H. discriminate. }
  rewrite (trimStart_app _ _ N), rev_app_distr. reflexivity.
Qed.

(** X6. The guide written into the prompt of the summary: the beginner guide
    exactly when the level is absent or is "beginner", the intermediate guide
    exactly when it is "intermediate", and the advanced guide for every
    other level, [null], a number or a differently spelled name among them.
    The guide is the second line of the prompt the handler sends, after the
    first line and before the rules, which the text of the request
    follows; a text that cannot be converted makes the handler throw before
    the call. *)
Theorem level_guide_choice (level : value) :
  (levelGuide (default level (VStr (u "beginner")))
   = levelGuide (VStr (u "beginner"))
   <-> level = VUndefined \/ level = VStr (u "beginner"))
  /\ (levelGuide (default level (VStr (u "beginner")))
      = levelGuide (VStr (u "intermediate"))
      <-> level = VStr (u "intermediate"))
  /\ (levelGuide (default level (VStr (u "beginner")))
      = levelGuide (VStr (u "advanced"))
      <-> level <> VUndefined /\ level <> VStr (u "beginner")
          /\ level <> VStr (u "intermediate"))
  /\ (forall body t,
        ToBoolean (input_of Summarize body) = true ->
        ToString (input_of Summarize body) = Some t ->
        get "level" (js_or body (VObj [])) = level ->
        exists k,
          summarize_handler body
          = CallCompletion model
              (summarize_head ++ [10]
               ++ levelGuide (default level (VStr (u "beginner"))) ++ [10]
               ++ join [10] summarize_rules ++ trimEnd (10 :: t ++ [10])) k)
  /\ (forall t,
        forallb isWhite t = false ->
        trimEnd (10 :: t ++ [10]) = 10 :: trimEnd t)
  /\ (forall body,
        ToBoolean (input_of Summarize body) = true ->
        ToString (input_of Summarize body) = None ->
        summarize_handler body = Throws ConversionError).
Proof.
  split; [|split; [|split; [|split; [|split; [exact trimEnd_line|]]]]].
  4: { unfold input_of, required_field. intros body t T S L.
       pose proof (summarize_handler_call body T) as H.
       rewrite S, L in H. destruct H as [k [Hk _]].
       exists k. rewrite Hk, summarize_prompt_lines. reflexivity. }
  4: { unfold input_of, required_field. intros body T S.
       pose proof (summarize_handler_call body T) as H.
       rewrite S in H. exact H. }
  all: pose proof level_guides_differ as D;
    pose proof (guide_of_level level) as C;
    assert (N1 : VStr (u "beginner") <> VStr (u "intermediate"))
      by (intros E; vm_compute in E; discriminate);
    assert (N2 : VUndefined <> VStr (u "intermediate")) by discriminate;
    revert D C;
    generalize (levelGuide (default level (VStr (u "beginner"))));
    generalize (levelGuide (VStr (u "beginner")));
    generalize (levelGuide (VStr (u "intermediate")));
    generalize (levelGuide (VStr (u "advanced")));
    intros g3 g2 g1 g [D12 [D13 D23]] C.
  - destruct C as [[A E]|[[A E]|[[A1 [A2 A3]] E]]]; subst g; split; auto;
      try (intros H; congruence).
    + intros [H|H]; congruence.
    + intros [H|H]; congruence.
  - destruct C as [[A E]|[[A E]|[[A1 [A2 A3]] E]]]; subst g; split; auto;
      try (intros H; congruence).
    intros H. destruct A; congruence.
  - destruct C as [[A E]|[[A E]|[[A1 [A2 A3]] E]]]; subst g; split; auto;
      try (intros H; congruence).
    + intros [H1 [H2 H3]]. destruct A; contradiction.
    + intros [H1 [H2 H3]]. contradiction.
Qed.

(** ** The tiers of the rate *)

Lemma num_leb_trans (a b c : number) :
  num_leb a b = true -> num_leb b c = true -> num_leb a c = true.
Proof.
  destruct a as [| | |x], b as [| | |y], c as [| | |z];
    try reflexivity; try discriminate.
  rewrite !num_leb_fin, !Z.leb_le. intros H1 H2.
  exact (Qle_trans x y z H1 H2).
Qed.

Lemma tier_rank (r : number) : tier_index (tier_of r) = rank r.
Proof.
  unfold tier_of, rank.
  destruct (num_leb r (num 80)); [reflexivity|].
  destruct (num_leb r (num 95)); [reflexivity|].
  destruct (num_leb r (num 110)); [reflexivity|].
  destruct (num_leb r (num 125)); reflexivity.
Qed.

Lemma tier_of_tiers (r : number) : In (tier_of r) tiers.
Proof.
  unfold tier_of, tiers.
  destruct (num_leb _ (num 80)); [left; reflexivity|].
  destruct (num_leb _ (num 95)); [right; left; reflexivity|].
  destruct (num_leb _ (num 110)); [do 2 right; left; reflexivity|].
  destruct (num_leb _ (num 125)); [do 3 right; left; reflexivity|].
  do 4 right; left; reflexivity.
Qed.

(** Clamping does not move a number across a threshold inside the
    interval. *)
Lemma clamp_threshold (a b t : Z) (x : number) :
  a <= t < b -> num_leb (clamp x (num a) (num b)) (num t) = num_leb x (num t).
Proof.
  intros H. destruct x as [| | |[n d]]; unfold clamp, num; simpl.
  - reflexivity.
  - cases_ltb; (reflexivity || lia).
  - cases_ltb; (reflexivity || lia).
  - assert (Hd : 0 < Z.pos d) by lia.
    assert (H1 : a * Z.pos d <= t * Z.pos d) by nia.
    assert (H2 : t * Z.pos d < b * Z.pos d) by nia.
    cases_ltb; (reflexivity || (exfalso; lia)).
Qed.

Lemma rank_clamp (x : number) : rank (clamp x (num 60) (num 140)) = rank x.
Proof.
  unfold rank. rewrite !clamp_threshold by lia. reflexivity.
Qed.

Lemma rank_mono (x y : number) :
  num_leb x y = true -> (rank x <= rank y)%nat.
Proof.
  intros H. unfold rank.
  assert (T : forall t, num_leb y (num t) = true -> num_leb x (num t) = true)
    by (intros t Ht; exact (num_leb_trans x y (num t) H Ht)).
  destruct (num_leb y (num 80)) eqn:Y1; [rewrite (T 80 Y1); lia|].
  destruct (num_leb y (num 95)) eqn:Y2.
  { rewrite (T 95 Y2). destruct (num_leb x (num 80)); lia. }
  destruct (num_leb y (num 110)) eqn:Y3.
  { rewrite (T 110 Y3).
    destruct (num_leb x (num 80)); [lia|].
    destruct (num_leb x (num 95)); lia. }
  destruct (num_leb y (num 125)) eqn:Y4.
  { rewrite (T 125 Y4).
    destruct (num_leb x (num 80)); [lia|].
    destruct (num_leb x (num 95)); [lia|].
    destruct (num_leb x (num 110)); lia. }
  destruct (num_leb x (num 80)); [lia|].
  destruct (num_leb x (num 95)); [lia|].
  destruct (num_leb x (num 110)); [lia|].
  destruct (num_leb x (num 125)); lia.
Qed.

(** The tier of a rate that is a number: that of the number, clamped, when
    it is truthy, and that of 100 when it is not. *)
Lemma number_rate (x : number) :
  ratePercentToSsmlRate (VNum x)
  = Some (tier_of (if ToBoolean (VNum x)
                   then clamp x (num 60) (num 140) else num 100)).
Proof.
  unfold ratePercentToSsmlRate, effective_rate.
  destruct (ToBoolean (VNum x)) eqn:T.
  - rewrite (js_or_truthy _ _ T). simpl. rewrite max_min_clamp by lia.
    reflexivity.
  - rewrite (js_or_falsy _ _ T). reflexivity.
Qed.

(** X7. The tier never gets slower when the rate grows: of two rates, the
    lower one not being 0, the lower one has the slower or the same tier.
    Every tier is one of the five. The rate 0 is the exception the default
    makes: its tier is "medium", above the tier of every other rate up to
    95. *)
Theorem tier_monotone (x y : number) :
  ToBoolean (VNum x) = true ->
  num_leb x y = true ->
  exists tx ty,
    ratePercentToSsmlRate (VNum x) = Some tx
    /\ ratePercentToSsmlRate (VNum y) = Some ty
    /\ (tier_index tx <= tier_index ty)%nat
    /\ In tx tiers
    /\ ratePercentToSsmlRate (VNum (num 0)) = Some (u "medium")
    /\ (num_leb x (num 95) = true ->
        (tier_index tx < tier_index (u "medium"))%nat).
Proof.
  intros T L. do 2 eexists.
  split; [apply number_rate|]. split; [apply number_rate|].
  rewrite T, !tier_rank, rank_clamp.
  split; [|split; [apply tier_of_tiers|split; [reflexivity|]]].
  - destruct (ToBoolean (VNum y)) eqn:Ty.
    + rewrite rank_clamp. apply rank_mono. exact L.
    + assert (Z0 : num_leb y (num 80) = true).
      { destruct y as [| | |[n d]]; try discriminate;
          [destruct x; discriminate|].
        simpl in Ty. apply negb_false_iff, Z.eqb_eq in Ty. simpl in Ty. subst n.
        unfold num. rewrite num_leb_fin. simpl. apply Z.leb_le. lia. }
      pose proof (num_leb_trans x y (num 80) L Z0) as X0.
      unfold rank at 1. rewrite X0. lia.
  - intros H. change (tier_index (u "medium")) with 2%nat.
    unfold rank.
    destruct (num_leb x (num 80)); [lia|]. rewrite H. lia.
Qed.

(** X8. A rate or a pause that is present and is converted to NaN (a text
    such as "slow") is not replaced by its default: the rate becomes NaN,
    which is above no threshold, and gives the fastest tier, "x-fast"; the
    pause becomes NaN, which is not above 0, and the words are joined by one
    space. *)
Theorem not_numeric_rate_and_pause (v : value) :
  ToBoolean v = true -> ToNumber v = Some NaN ->
  effective_rate v = Some NaN
  /\ ratePercentToSsmlRate v = Some (u "x-fast")
  /\ safePause v = Some NaN
  /\ (forall text,
        ssml_body text v
        = option_map (fun ws => join [32] (map escapeXml ws)) (words_of text)).
Proof.
  intros T N.
  assert (R : effective_rate v = Some NaN).
  { unfold effective_rate. rewrite (js_or_truthy _ _ T), N. reflexivity. }
  assert (P : safePause v = Some NaN).
  { unfold safePause. rewrite (js_or_truthy _ _ T), N. reflexivity. }
  repeat split; try assumption.
  - unfold ratePercentToSsmlRate. rewrite R. reflexivity.
  - intros text. rewrite (ssml_body_joined _ _ _ P). reflexivity.
Qed.

(** ** Filtering a summary twice *)

Lemma trimStart_incl (c : Z) (s : jsstring) : In c (trimStart s) -> In c s.
Proof.
  induction s as [|x r IH]; [auto|].
  simpl. destruct (isWhite x); [right; auto|auto].
Qed.

Lemma trim_incl (c : Z) (s : jsstring) : In c (trim s) -> In c s.
Proof.
  unfold trim, trimEnd. intros H.
  apply in_rev in H. apply trimStart_incl in H. apply in_rev in H.
  apply trimStart_incl. exact H.
Qed.

Lemma trimStart_fix (s : jsstring) : startsWhite s = false -> trimStart s = s.
Proof. destruct s as [|c r]; [reflexivity|]. simpl. intros ->. reflexivity. Qed.

Lemma trimStart_starts (s : jsstring) : startsWhite (trimStart s) = false.
Proof.
  induction s as [|c r IH]; [reflexivity|].
  simpl. destruct (isWhite c) eqn:W; [exact IH|]. simpl. exact W.
Qed.

Lemma trimEnd_fix (s : jsstring) :
  startsWhite (rev s) = false -> trimEnd s = s.
Proof.
  intros H. unfold trimEnd. rewrite (trimStart_fix _ H). apply rev_involutive.
Qed.

Lemma trimEnd_ends (s : jsstring) : startsWhite (rev (trimEnd s)) = false.
Proof. unfold trimEnd. rewrite rev_involutive. apply trimStart_starts. Qed.

Lemma trimEnd_starts (s : jsstring) :
  startsWhite s = false -> startsWhite (trimEnd s) = false.
Proof.
  intros H.
  destruct (trimStart_split (rev s)) as [ws [E W]].
  assert (S : s = trimEnd s ++ rev ws).
  { unfold trimEnd. rewrite <- rev_app_distr, <- E, rev_involutive. reflexivity. }
  destruct (trimEnd s) as [|x t] eqn:T; [reflexivity|].
  rewrite S in H. exact H.
Qed.

(** A trimmed text has no white space at its ends, and trimming it again
    leaves it as it is. *)
Lemma trim_idempotent (s : jsstring) : trim (trim s) = trim s.
Proof.
  assert (A : startsWhite (trim s) = false).
  { unfold trim. apply trimEnd_starts, trimStart_starts. }
  assert (B : startsWhite (rev (trim s)) = false).
  { unfold trim. apply trimEnd_ends. }
  unfold trim at 1. rewrite (trimStart_fix _ A). apply trimEnd_fix. exact B.
Qed.

Lemma split_char_no_sep (sep : Z) (l : jsstring) :
  ~ In sep l -> split_char sep l = [l].
Proof.
  induction l as [|c r IH]; intros H; [reflexivity|].
  simpl in *. destruct (Z.eqb_spec c sep) as [E|E]; [tauto|].
  rewrite IH by tauto. reflexivity.
Qed.

Lemma split_char_app (sep : Z) (l rest : jsstring) :
  ~ In sep l -> split_char sep (l ++ sep :: rest) = l :: split_char sep rest.
Proof.
  induction l as [|c r IH]; intros H.
  - simpl. rewrite Z.eqb_refl. reflexivity.
  - simpl in *. destruct (Z.eqb_spec c sep) as [E|E]; [tauto|].
    rewrite IH by tauto. reflexivity.
Qed.

Lemma split_char_pieces (sep : Z) (s l : jsstring) :
  In l (split_char sep s) -> ~ In sep l.
Proof.
  revert l. induction s as [|c r IH]; intros l H.
  - simpl in H. destruct H as [<-|[]]. intros [].
  - simpl in H. destruct (Z.eqb_spec c sep) as [E|E].
    + destruct H as [<-|H]; [intros []|exact (IH l H)].
    + destruct (split_char sep r) as [|t ts] eqn:S.
      * destruct H as [<-|[]]. intros [A|[]]. exact (E A).
      * destruct H as [<-|H].
        -- intros [A|A]; [exact (E A)|].
           exact (IH t (or_introl eq_refl) A).
        -- apply IH. right. exact H.
Qed.

Lemma split_char_join (sep : Z) (ls : list jsstring) :
  ls <> [] -> (forall l, In l ls -> ~ In sep l) ->
  split_char sep (join [sep] ls) = ls.
Proof.
  induction ls as [|l rest IH]; intros N H; [contradiction|].
  destruct rest as [|l2 rest'].
  - simpl. apply split_char_no_sep. apply H. left. reflexivity.
  - change (join [sep] (l :: l2 :: rest'))
      with (l ++ sep :: join [sep] (l2 :: rest')).
    rewrite split_char_app by (apply H; left; reflexivity).
    rewrite IH; [reflexivity|discriminate|].
    intros x Hx. apply H. right. exact Hx.
Qed.

Lemma kept_line_facts (content line : jsstring) :
  In line (kept_lines content) ->
  hasHebrew line || hasDeva line = true
  /\ trim line = line /\ ~ In 10 line.
Proof.
  unfold kept_lines. rewrite kept_lines_filter, in_map_iff.
  intros [l [<- Hl]]. apply filter_In in Hl. destruct Hl as [Hin Hs].
  split; [|split].
  - apply has_script_spec in Hs. destruct Hs as [c [Hc Sc]].
    apply has_script_spec. exists c. split; [|exact Sc].
    apply trim_In; [exact Hc|apply in_script_not_white; exact Sc].
  - apply trim_idempotent.
  - intros H. apply trim_incl in H. exact (split_char_pieces 10 content l Hin H).
Qed.

(** X9. Every line of a filtered summary holds a Hebrew or a Devanagari
    character, has no white space at its ends and no line break inside; so
    the filter finds nothing more to remove in its own result: filtering
    twice gives what filtering once gives. *)
Theorem filter_result_idempotent (content : jsstring) :
  (forall line,
     In line (kept_lines content) ->
     hasHebrew line || hasDeva line = true
     /\ trim line = line /\ ~ In 10 line)
  /\ kept_lines (filter_result content) = kept_lines content
  /\ filter_result (filter_result content) = filter_result content.
Proof.
  split; [exact (kept_line_facts content)|].
  assert (K : kept_lines (filter_result content) = kept_lines content).
  { unfold filter_result.
    destruct (kept_lines content) as [|k ks] eqn:E; [reflexivity|].
    unfold kept_lines at 1. rewrite kept_lines_filter.
    rewrite split_char_join;
      [|discriminate
       |intros l Hl; rewrite <- E in Hl; apply (kept_line_facts content l Hl)].
    assert (F : forall ls,
               (forall l, In l ls -> In l (kept_lines content)) ->
               map trim (filter (fun l => hasHebrew l || hasDeva l) ls) = ls).
    { induction ls as [|l r IH]; intros H; [reflexivity|].
      destruct (kept_line_facts content l (H l (or_introl eq_refl)))
        as [S [T _]].
      simpl. rewrite S. simpl. rewrite T, IH; [reflexivity|].
      intros x Hx. apply H. right. exact Hx. }
    apply F. intros l Hl. rewrite E. exact Hl. }
  split; [exact K|].
  unfold filter_result at 1. rewrite K. reflexivity.
Qed.

(** ** Start-up reads five variables *)

(** X10. Start-up depends on the four required variables and [PORT] only:
    two environments that agree on these five start the same way. The port
    is the text of [PORT] when it is set and not empty, and 3001
    otherwise. *)
Theorem startup_reads_five (env env' : environment) :
  ((forall k, In k (u "PORT" :: required) ->
              process_env env k = process_env env' k) ->
   startup env = startup env')
  /\ (forall p,
        startup env = Listen p ->
        (exists v, v <> [] /\ process_env env (u "PORT") = VStr v /\ p = VStr v)
        \/ (~ configured env (u "PORT") /\ p = VNum (num 3001))).
Proof.
  split.
  - intros H.
    assert (M : missing env = missing env').
    { unfold missing. apply filter_ext_in. intros k Hk.
      rewrite (H k (or_intror Hk)). reflexivity. }
    unfold startup. rewrite M, (H (u "PORT") (or_introl eq_refl)). reflexivity.
  - intros p. unfold startup.
    destruct (negb (Z.of_nat (List.length (missing env)) =? 0)); [discriminate|].
    intros E. injection E as <-.
    destruct (ToBoolean (process_env env (u "PORT"))) eqn:T.
    + left. rewrite (js_or_truthy _ _ T).
      apply configured_truthy in T. destruct T as [v [Ev Hv]].
      exists v. rewrite Ev. repeat split; assumption.
    + right. rewrite (js_or_falsy _ _ T). split; [|reflexivity].
      intros C. apply configured_truthy in C. congruence.
Qed.

(** ** The markup of [buildHindiSsml] *)

Lemma trim_line_break (x : jsstring) :
  startsWhite x = false -> startsWhite (rev x) = false -> trim (10 :: x) = x.
Proof.
  intros A B. unfold trim. simpl trimStart.
  rewrite (trimStart_fix _ A). apply trimEnd_fix. exact B.
Qed.

(** X11. The markup is the template itself, from [<speak] to [</speak>],
    with the tier and the body in their places: the trim removes the line
    break before [<speak] and nothing else, whatever the text is. There is
    no markup when the tier or the body cannot be computed. *)
Theorem buildHindiSsml_template (text ratePercent pauseMs : value) :
  buildHindiSsml text ratePercent pauseMs
  = match ratePercentToSsmlRate ratePercent, ssml_body text pauseMs with
    | Some tag, Some body =>
      Some
        (dq (u "<speak version=`1.0` xml:lang=`hi-IN` xmlns=`http://www.w3.org/2001/10/synthesis`>")
         ++ [10] ++ dq (u "  <voice name=`hi-IN-SwaraNeural`>")
         ++ [10] ++ dq (u "    <prosody rate=`") ++ tag ++ dq (u "`>")
         ++ [10] ++ u "      " ++ body
         ++ [10] ++ u "    </prosody>"
         ++ [10] ++ u "  </voice>"
         ++ [10] ++ u "</speak>")
    | _, _ => None
    end.
Proof.
  unfold buildHindiSsml.
  destruct (ratePercentToSsmlRate ratePercent) as [tag|]; [|reflexivity].
  destruct (ssml_body text pauseMs) as [body|]; [|reflexivity].
  f_equal. unfold ssml_template.
  apply trim_line_break.
  - reflexivity.
  - rewrite !rev_app_distr. reflexivity.
Qed.

Lemma count_occ_join (sep : jsstring) (xs : list jsstring) (c : Z) :
  count_occ Z.eq_dec (join sep xs) c
  = (list_sum (map (fun x => count_occ Z.eq_dec x c) xs)
     + (List.length xs - 1) * count_occ Z.eq_dec sep c)%nat.
Proof.
  induction xs as [|x rest IH]; [reflexivity|].
  destruct rest as [|y rest'].
  - simpl. lia.
  - change (join sep (x :: y :: rest')) with (x ++ sep ++ join sep (y :: rest')).
    rewrite !count_occ_app, IH. simpl. lia.
Qed.

(** An escaped word holds none of [<], [>], the double quote and the
    apostrophe. *)
Lemma escapeXml_count (w : jsstring) (c : Z) :
  c = 60 \/ c = 62 \/ c = 34 \/ c = 39 ->
  count_occ Z.eq_dec (escapeXml w) c = 0%nat.
Proof.
  intros H. apply count_occ_not_In. intros I.
  apply escapeXml_safe in I. lia.
Qed.

(** X12. No [<], [>], double quote or apostrophe of the text reaches the
    body of the markup: the body holds each of the four as often as the
    joiners between its words do, and not once more; when the pause is not
    above 0 the joiner is a space, and the body holds none of the four. *)
Theorem ssml_body_escaped (text pauseMs : value) (body : jsstring) (c : Z) :
  ssml_body text pauseMs = Some body ->
  c = 60 \/ c = 62 \/ c = 34 \/ c = 39 ->
  exists p ws,
    safePause pauseMs = Some p
    /\ words_of text = Some ws
    /\ body = join (joiner_of p) (map escapeXml ws)
    /\ count_occ Z.eq_dec body c
       = ((List.length ws - 1) * count_occ Z.eq_dec (joiner_of p) c)%nat
    /\ (num_gtb p (num 0) = false -> count_occ Z.eq_dec body c = 0%nat).
Proof.
  intros B C. unfold ssml_body in B.
  destruct (safePause pauseMs) as [p|]; [|discriminate].
  destruct (words_of text) as [ws|]; [|discriminate].
  injection B as <-. exists p, ws.
  split; [reflexivity|]. split; [reflexivity|]. split; [reflexivity|].
  assert (E : count_occ Z.eq_dec (join (joiner_of p) (map escapeXml ws)) c
              = ((List.length ws - 1)
                 * count_occ Z.eq_dec (joiner_of p) c)%nat).
  { rewrite count_occ_join, length_map, map_map.
    assert (S : list_sum
                  (map (fun x => count_occ Z.eq_dec (escapeXml x) c) ws)
                = 0%nat).
    { induction ws as [|w r IH]; [reflexivity|].
      simpl. rewrite IH, (escapeXml_count w c C). reflexivity. }
    rewrite S. reflexivity. }
  split; [exact E|].
  intros G. rewrite E. unfold joiner_of. rewrite G.
  assert (Z0 : count_occ Z.eq_dec [32] c = 0%nat).
  { apply count_occ_not_In. intros [I|[]]. lia. }
  rewrite Z0. lia.
Qed.

(** ** The statuses of the answers *)

(** The handler of an endpoint throws, before its [try], exactly when the
    required input is truthy and cannot be converted to text, or, on
    [/api/speak], the rate or the pause cannot be converted to a number. *)
Lemma handler_of_throws (ep : endpoint) (body : value) (e : thrown) :
  handler_of ep body = Throws e
  <-> e = ConversionError
      /\ ToBoolean (input_of ep body) = true
      /\ (ToString (input_of ep body) = None
          \/ (ep = Speak
              /\ (ToNumber
                    (default (get "rate" (js_or body (VObj [])))
                       (VNum (num 100))) = None
                  \/ ToNumber
                       (default (get "pauseMs" (js_or body (VObj [])))
                          (VNum (num 0))) = None))).
Proof.
  destruct (ToBoolean (input_of ep body)) eqn:T.
  2: { rewrite (falsy_input_400 ep body T).
       split; [discriminate|]. intros [_ [H _]]. discriminate. }
  destruct ep; unfold input_of, required_field in *; simpl handler_of.
  - pose proof (summarize_handler_call body T) as H.
    destruct (ToString (get "text" _)) as [t|].
    + destruct H as [k [-> _]]. split; [discriminate|].
      intros [_ [_ [H|[H _]]]]; discriminate.
    + rewrite H. split.
      * intros E. injection E as <-. repeat split. left. reflexivity.
      * intros [-> _]. reflexivity.
  - pose proof (speak_handler_call body T) as H.
    pose proof (buildHindiSsml_throws (get "text" (js_or body (VObj [])))
                  (default (get "rate" (js_or body (VObj [])))
                     (VNum (num 100)))
                  (default (get "pauseMs" (js_or body (VObj [])))
                     (VNum (num 0)))) as B.
    destruct (buildHindiSsml _ _ _) as [ssml|].
    + destruct H as [k [-> _]]. split; [discriminate|].
      intros [_ [_ C]].
      assert (X : @Some jsstring ssml = None); [|discriminate].
      apply B. destruct C as [C|[_ C]]; [left; exact C|right; exact C].
    + rewrite H. split.
      * intros E. injection E as <-. split; [reflexivity|].
        split; [reflexivity|].
        destruct (proj1 B eq_refl) as [C|C]; [left; exact C|].
        right. split; [reflexivity|exact C].
      * intros [-> _]. reflexivity.
  - unfold wordmap_handler. cbv zeta. rewrite T. simpl negb. cbv iota.
    unfold words_of.
    destruct (ToString (get "sentence" _)) as [t|]; simpl option_map; cbv iota.
    + split.
      * destruct (Z.of_nat (List.length (words_of_text t)) =? 0); discriminate.
      * intros [_ [_ [H|[H _]]]]; discriminate.
    + split.
      * intros E. injection E as <-. repeat split. left. reflexivity.
      * intros [-> _]. reflexivity.
Qed.

Lemma handler_of_cases (ep : endpoint) (body : value) :
  (handler_of ep body = Respond (Json 400 (error_body (missing_message ep))))
  \/ (ep = Wordmap
      /\ handler_of ep body = Respond (Json 200 (obj1 "words" (VArr []))))
  \/ (ep <> Speak
      /\ exists prompt k,
           handler_of ep body = CallCompletion model prompt k
           /\ answers_200_or_500 k)
  \/ (ep = Speak
      /\ exists ssml k,
           handler_of ep body = CallSpeech ssml k /\ answers_200_or_500 k)
  \/ handler_of ep body = Throws ConversionError.
Proof.
  destruct (ToBoolean (input_of ep body)) eqn:T;
    [|left; exact (falsy_input_400 ep body T)].
  right. destruct ep; unfold input_of, required_field in T; simpl handler_of.
  - pose proof (summarize_handler_call body T) as H.
    destruct (ToString (get "text" _)) as [t|]; [|do 3 right; exact H].
    right; left. split; [discriminate|].
    destruct H as [k [E [H1 H2]]].
    eexists. exists k. split; [exact E|].
    intros [e|c]; [right; rewrite H2|left; rewrite H1]; reflexivity.
  - pose proof (speak_handler_call body T) as H.
    destruct (buildHindiSsml _ _ _) as [ssml|]; [|do 3 right; exact H].
    right; right; left. split; [reflexivity|].
    destruct H as [k [E [H1 H2]]].
    exists ssml, k. split; [exact E|].
    intros [e|a|r|e|e]; try (right; apply H2; intros; discriminate).
    left. rewrite H1. reflexivity.
  - destruct (words_of (get "sentence" (js_or body (VObj [])))) as [ws|] eqn:W.
    + destruct ws as [|w ws].
      * left. split; [reflexivity|].
        unfold wordmap_handler. cbv zeta. rewrite T, W. reflexivity.
      * right; left. split; [discriminate|].
        assert (N : w :: ws <> []) by discriminate.
        destruct (wordmap_handler_call body _ T W N) as [k [E [H1 H2]]].
        eexists. exists k. split; [exact E|].
        intros [e|c]; [right; rewrite H2; reflexivity|].
        rewrite H1. destruct (parse_raw _) as [e|parsed]; [right; reflexivity|].
        destruct (normalized _ _); [left|right]; reflexivity.
    + do 3 right.
      unfold wordmap_handler. cbv zeta. rewrite T, W. reflexivity.
Qed.

(** X13. A request to one of the three endpoints goes one of five ways: it is
    answered with the 400 of the missing input, before any call; on
    [/api/wordmap] with the empty word list, before any call; after one
    call to the completion provider (to the speech provider on [/api/speak]
    and there only), with a 200 or a 500 and nothing else, whatever the
    provider gives; or the handler throws before its [try], with no call
    and no answer of its own, which happens exactly when the required input
    is truthy and cannot be converted to text or, on [/api/speak], the rate
    or the pause cannot be converted to a number. *)
Theorem answers_by_endpoint (ep : endpoint) (body : value) :
  ((handler_of ep body
    = Respond (Json 400 (error_body (missing_message ep))))
   \/ (ep = Wordmap
       /\ handler_of ep body = Respond (Json 200 (obj1 "words" (VArr []))))
   \/ (ep <> Speak
       /\ exists prompt k,
            handler_of ep body = CallCompletion model prompt k
            /\ answers_200_or_500 k)
   \/ (ep = Speak
       /\ exists ssml k,
            handler_of ep body = CallSpeech ssml k
            /\ answers_200_or_500 k)
   \/ handler_of ep body = Throws ConversionError)
  /\ (forall e,
        handler_of ep body = Throws e
        <-> e = ConversionError
            /\ ToBoolean (input_of ep body) = true
            /\ (ToString (input_of ep body) = None
                \/ (ep = Speak
                    /\ (ToNumber
                          (default (get "rate" (js_or body (VObj [])))
                             (VNum (num 100))) = None
                        \/ ToNumber
                             (default (get "pauseMs" (js_or body (VObj [])))
                                (VNum (num 0))) = None))))
  /\ handler_of Speak
       (VObj [(u "text", VStr (u "a"));
              (u "rate", obj1 "toString" (VNum (num 1)))])
     = Throws ConversionError.
Proof.
  split; [apply handler_of_cases|].
  split; [intros e; apply handler_of_throws|].
  vm_compute. reflexivity.
Qed.

(** ** The further properties at concrete inputs *)

Lemma blank_text_input_witness :
  u "  " <> [] /\ forallb isWhite (u "  ") = true
  /\ wordmap_handler (obj1 "sentence" (VStr (u "  ")))
     = Respond (Json 200 (obj1 "words" (VArr [])))
  /\ calls (speak_handler (obj1 "text" (VStr (u "  ")))) = 1%nat.
Proof.
  assert (N : u "  " <> []) by discriminate.
  assert (W : forallb isWhite (u "  ") = true) by reflexivity.
  split; [exact N|]. split; [exact W|]. split.
  - destruct (blank_text_input (u "  ") (obj1 "sentence" (VStr (u "  "))) N W)
      as [H _].
    apply H. reflexivity.
  - destruct (blank_text_input (u "  ") (obj1 "text" (VStr (u "  "))) N W)
      as [_ [H _]].
    destruct (H eq_refl) as [C _].
    apply (C (u "medium")); [reflexivity|discriminate].
Defined.

Lemma gloss_by_position_witness :
  get "words" parsed_ek
  = VArr [VObj [(u "hi", VStr (u "ek")); (u "he", VStr (lit "אחד"))]]
  /\ nth_error [u "ek"; u "din"] 1 = Some (u "din")
  /\ normalized [u "ek"; u "din"] parsed_ek
     = Some [entry (u "ek") (lit "אחד"); entry (u "din") []]
  /\ nth_error [entry (u "ek") (lit "אחד"); entry (u "din") []] 1
     = Some (entry (u "din") []).
Proof.
  assert (A : get "words" parsed_ek
              = VArr [VObj [(u "hi", VStr (u "ek")); (u "he", VStr (lit "אחד"))]])
    by reflexivity.
  assert (B : nth_error [u "ek"; u "din"] 1 = Some (u "din")) by reflexivity.
  assert (N : normalized [u "ek"; u "din"] parsed_ek
              = Some [entry (u "ek") (lit "אחד"); entry (u "din") []])
    by (vm_compute; reflexivity).
  split; [exact A|]. split; [exact B|]. split; [exact N|].
  destruct (gloss_by_position [u "ek"; u "din"] parsed_ek _ 1%nat (u "din") A B)
    as [H _].
  destruct (H _ N) as [H1 _].
  apply H1. reflexivity.
Defined.

Lemma tier_monotone_witness :
  ToBoolean (VNum (num 70)) = true /\ num_leb (num 70) (num 100) = true
  /\ exists tx ty,
       ratePercentToSsmlRate (VNum (num 70)) = Some tx
       /\ ratePercentToSsmlRate (VNum (num 100)) = Some ty
       /\ (tier_index tx <= tier_index ty)%nat.
Proof.
  split; [reflexivity|]. split; [reflexivity|].
  destruct (tier_monotone (num 70) (num 100) eq_refl eq_refl)
    as [tx [ty [X [Y [L _]]]]].
  exists tx, ty. split; [exact X|]. split; [exact Y|exact L].
Defined.

Lemma not_numeric_rate_and_pause_witness :
  ToBoolean (VStr (u "slow")) = true /\ ToNumber (VStr (u "slow")) = Some NaN
  /\ ratePercentToSsmlRate (VStr (u "slow")) = Some (u "x-fast").
Proof.
  assert (N : ToNumber (VStr (u "slow")) = Some NaN) by (vm_compute; reflexivity).
  split; [reflexivity|]. split; [exact N|].
  exact (proj1 (proj2 (not_numeric_rate_and_pause (VStr (u "slow")) eq_refl N))).
Defined.

Lemma ssml_body_escaped_witness :
  ssml_body (VStr (u "a<b c")) (VNum (num 500))
  = Some (u "a&lt;b" ++ dq (u "<break time=`500ms`/>") ++ u "c")
  /\ (60 = 60 \/ 60 = 62 \/ 60 = 34 \/ 60 = 39)
  /\ count_occ Z.eq_dec
       (u "a&lt;b" ++ dq (u "<break time=`500ms`/>") ++ u "c") 60
     = 1%nat.
Proof.
  assert (B : ssml_body (VStr (u "a<b c")) (VNum (num 500))
              = Some (u "a&lt;b" ++ dq (u "<break time=`500ms`/>") ++ u "c"))
    by (vm_compute; reflexivity).
  assert (C : 60 = 60 \/ 60 = 62 \/ 60 = 34 \/ 60 = 39) by (left; reflexivity).
  split; [exact B|]. split; [exact C|].
  destruct (ssml_body_escaped _ _ _ 60 B C) as [p [ws [P [W [_ [E _]]]]]].
  rewrite E.
  vm_compute in P. injection P as <-.
  vm_compute in W. injection W as <-.
  vm_compute. reflexivity.
Defined.
